(** * AT89S52 four-function calculator firmware: evaluator, input controller,
      keypad scanner and numeric rendering.

    The repository holds three variants of one firmware:
      - [calculator.c] (modules [Calculator], [CalculatorMain], [Keypad]):
        the fault is reported through an [unsigned char *err] parameter;
      - [unnamed/part_000] (modules [Part000], [Part000Main], [Keypad]):
        the fault is reported through the global [error_flag];
      - [README.md] (modules [Readme], [ReadmeMain], [ReadmeKeypad]): the
        fault is reported through a [bit *err] parameter, and the keypad is
        scanned row by row through a key table.

    Keil C51 data model: [long] is a 32-bit two's-complement integer whose
    arithmetic wraps, [char] is 8 bits.  Division by zero is the one
    operation of the program with no defined result.

    The controller and the evaluator are modelled over the bytes the display
    latches and the keys the scanner returns; [delay_ms] does not appear
    there, it only spends time.  The delay loop itself and the pin activity
    of the display functions are modelled on their own further down.  What
    is left out: the port initialisation in [main] and the driving of the
    keypad lines, of which the keypad functions see what the scans read. *)

From Stdlib Require Import ZArith List Ascii String Bool Lia.
Import ListNotations.
Local Open Scope Z_scope.

(** ** The 32-bit [long] type *)

Module Long.

Definition min_long : Z := - 2 ^ 31.
Definition max_long : Z := 2 ^ 31 - 1.

Definition in_range (z : Z) : Prop := min_long <= z <= max_long.

(** Reduction of an exact integer to the 32-bit two's-complement range. *)
Definition wrap (z : Z) : Z := (z + 2 ^ 31) mod 2 ^ 32 - 2 ^ 31.

Definition add (a b : Z) : Z := wrap (a + b).
Definition sub (a b : Z) : Z := wrap (a - b).
Definition mul (a b : Z) : Z := wrap (a * b).
Definition neg (a : Z) : Z := wrap (- a).

(** [a / b] and [a % b] of C: truncation toward zero; no result at all
    for a zero divisor. *)
Definition div (a b : Z) : option Z :=
  if b =? 0 then None else Some (wrap (Z.quot a b)).
Definition rem (a b : Z) : option Z :=
  if b =? 0 then None else Some (wrap (Z.rem a b)).

End Long.

(** ** Characters *)

(** Value of a [char] as the (signed) integer C computes with. *)
Definition char_val (c : ascii) : Z :=
  let n := Z.of_N (N_of_ascii c) in
  if n <? 128 then n else n - 256.

(** Conversion of an integer to [char] keeps the low 8 bits. *)
Definition to_char (z : Z) : ascii := ascii_of_N (Z.to_N (z mod 256)).

(** The [char] value 0: "no key" for the scanner, "no operator" for [op]. *)
Definition NUL : ascii := zero.

(** ** The machine: what the firmware can change outside its locals *)

(** One request latched by the display on an [EN] pulse: a command byte
    ([RS = 0]) or a data byte ([RS = 1]). *)
Inductive lcd_event : Type :=
| LcdCmd (cmd : Z)
| LcdData (dat : ascii).

(** [lcd_bus] is everything sent to the display so far, oldest first;
    [error_flag] is the global of part_000 (the two other files declare no
    such variable and never touch the field). *)
Record machine : Type := mkMachine {
  lcd_bus : list lcd_event;
  error_flag : Z
}.

(** Computations of the firmware: a state transformer over the machine
    that has no result when the C code has none (division by zero). *)
Definition M (A : Type) : Type := machine -> option (A * machine).

Definition ret {A} (a : A) : M A := fun m => Some (a, m).

Definition bind {A B} (c : M A) (k : A -> M B) : M B :=
  fun m => match c m with
           | Some (a, m') => k a m'
           | None => None
           end.

Definition undefined_or {A} (o : option A) : M A :=
  fun m => match o with
           | Some a => Some (a, m)
           | None => None
           end.

Declare Scope fw_scope.
Delimit Scope fw_scope with fw.
Notation "x <- c ;; k" := (bind c (fun x => k))
  (at level 61, c at next level, right associativity) : fw_scope.
Notation "' p <- c ;; k" := (bind c (fun x => let p := x in k))
  (at level 61, p pattern, c at next level, right associativity) : fw_scope.
Notation "c ;; k" := (bind c (fun _ => k))
  (at level 61, right associativity) : fw_scope.
Local Open Scope fw_scope.

Definition set_error_flag (v : Z) : M unit :=
  fun m => Some (tt, {| lcd_bus := lcd_bus m; error_flag := v |}).

Definition get_error_flag : M Z :=
  fun m => Some (error_flag m, m).

(** ** Display functions

    [lcd_cmd], [lcd_data], [lcd_goto] and [lcd_print] are the same in the
    three files once the pulse on [EN] is taken as one event; [lcd_clear]
    is a function of calculator.c and part_000, README.md writes
    [lcd_cmd(0x01)] in its place. *)

Definition emit (e : lcd_event) : M unit :=
  fun m => Some (tt, {| lcd_bus := lcd_bus m ++ [e]; error_flag := error_flag m |}).

Definition lcd_cmd (cmd : Z) : M unit := emit (LcdCmd (cmd mod 256)).

Definition lcd_data (dat : ascii) : M unit := emit (LcdData dat).

Definition lcd_clear : M unit := lcd_cmd 1.

(** [row], [col] and [addr] are of type [unsigned char]: the arguments are
    reduced to 8 bits on the call, the address on the assignment. *)
Definition lcd_goto (row col : Z) : M unit :=
  let row := row mod 256 in
  let col := col mod 256 in
  let addr := if row =? 0 then 128 + col else 192 + col in
  lcd_cmd addr.

(** The loop on a C string: [str] is the bytes of the array passed, without
    the terminator that ends it; the loop stops at the first byte that is 0,
    at the latest at that terminator. *)
Fixpoint lcd_print (str : string) : M unit :=
  match str with
  | EmptyString => ret tt
  | String c rest =>
      if Ascii.eqb c NUL then ret tt else lcd_data c ;; lcd_print rest
  end.

(** ** Evaluators *)

Module Calculator.

(** calculator.c, lines 161-175:
    [long calc_apply(long a, long b, char op, unsigned char *err)].
    [err] is the content of the pointed cell on entry, the second
    component of the result its content on return. *)
Definition calc_apply (a b : Z) (op : ascii) (err : Z) : M (Z * Z) :=
  let err := 0 in
  if Ascii.eqb op "+"%char then ret (Long.add a b, err)
  else if Ascii.eqb op "-"%char then ret (Long.sub a b, err)
  else if Ascii.eqb op "*"%char then ret (Long.mul a b, err)
  else if Ascii.eqb op "/"%char then
    if b =? 0 then let err := 1 in ret (0, err)
    else q <- undefined_or (Long.div a b) ;; ret (q, err)
  else ret (b, err).

End Calculator.

Module Part000.

(** part_000, lines 171-190: [long calc_apply(long a, long b, char op)];
    the fault goes to the global [error_flag]. *)
Definition calc_apply (a b : Z) (op : ascii) : M Z :=
  set_error_flag 0 ;;
  if Ascii.eqb op "+"%char then ret (Long.add a b)
  else if Ascii.eqb op "-"%char then ret (Long.sub a b)
  else if Ascii.eqb op "*"%char then ret (Long.mul a b)
  else if Ascii.eqb op "/"%char then
    if b =? 0 then set_error_flag 1 ;; ret 0
    else undefined_or (Long.div a b)
  else ret b.

End Part000.

Module Readme.

(** README.md, lines 145-159:
    [long apply_op(long a, long b, char op, bit *err)]. *)
Definition apply_op (a b : Z) (op : ascii) (err : bool) : M (Z * bool) :=
  let err := false in
  if Ascii.eqb op "+"%char then ret (Long.add a b, err)
  else if Ascii.eqb op "-"%char then ret (Long.sub a b, err)
  else if Ascii.eqb op "*"%char then ret (Long.mul a b, err)
  else if Ascii.eqb op "/"%char then
    if b =? 0 then let err := true in ret (0, err)
    else q <- undefined_or (Long.div a b) ;; ret (q, err)
  else ret (b, err).

End Readme.

(** ** Numeric rendering

    [lcd_print_num] has the same text in the three files (calculator.c,
    lines 74-99). *)

(** The digit loop [while(n > 0 && i < 11) { buf[i++] = (n % 10) + '0'; n /= 10; }].
    [buf] holds the cells [buf[0] .. buf[i-1]] written so far and [room] is
    [11 - i]. *)
Fixpoint fill_buf (room : nat) (n : Z) (buf : list ascii) : M (list ascii) :=
  match room with
  | O => ret buf
  | S room' =>
      if 0 <? n then
        d <- undefined_or (Long.rem n 10) ;;
        q <- undefined_or (Long.div n 10) ;;
        fill_buf room' q (buf ++ [to_char (Long.add d (char_val "0"%char))])
      else ret buf
  end.

(** The output loop [while(i--) lcd_data(buf[i]);]: last written cell first. *)
Fixpoint send_buf (buf_rev : list ascii) : M unit :=
  match buf_rev with
  | [] => ret tt
  | c :: rest => lcd_data c ;; send_buf rest
  end.

Definition lcd_print_num (n : Z) : M unit :=
  if n =? 0 then lcd_data "0"%char
  else
    n <- (if n <? 0 then lcd_data "-"%char ;; ret (Long.neg n) else ret n) ;;
    buf <- fill_buf 11 n [] ;;
    send_buf (rev buf).

(** ** Keypad of calculator.c and part_000 *)

Module Keypad.

(** calculator.c, lines 111-158 (part_000, lines 115-167).

    What the four row lines read while one column is driven low:
    [lines col row = true] when row line [R(row+1)] reads 0 with column
    [C(col+1)] low. *)
Definition matrix : Type := nat -> nat -> bool.

Definition keypad_scan (lines : matrix) : ascii :=
  if lines 0%nat 0%nat then "7"%char
  else if lines 0%nat 1%nat then "4"%char
  else if lines 0%nat 2%nat then "1"%char
  else if lines 0%nat 3%nat then "C"%char
  else if lines 1%nat 0%nat then "8"%char
  else if lines 1%nat 1%nat then "5"%char
  else if lines 1%nat 2%nat then "2"%char
  else if lines 1%nat 3%nat then "0"%char
  else if lines 2%nat 0%nat then "9"%char
  else if lines 2%nat 1%nat then "6"%char
  else if lines 2%nat 2%nat then "3"%char
  else if lines 2%nat 3%nat then "="%char
  else if lines 3%nat 0%nat then "/"%char
  else if lines 3%nat 1%nat then "*"%char
  else if lines 3%nat 2%nat then "-"%char
  else if lines 3%nat 3%nat then "+"%char
  else NUL.

(** [keypad_getkey] blocks on the scanner.  It is run here on the results
    of the successive calls of [keypad_scan], one list element per call;
    [None]: the readings ran out with the function still waiting. *)

(** [while(keypad_scan() != 0);] *)
Fixpoint wait_release (scans : list ascii) : option (list ascii) :=
  match scans with
  | [] => None
  | r :: rest => if Ascii.eqb r NUL then Some rest else wait_release rest
  end.

Fixpoint keypad_getkey (scans : list ascii) : option (ascii * list ascii) :=
  match scans with
  | [] => None
  | k :: after_k =>
      if negb (Ascii.eqb k NUL) then
        (* delay_ms(25), then the confirmation scan *)
        match after_k with
        | [] => None
        | k2 :: after_k2 =>
            if Ascii.eqb k2 k then
              match wait_release after_k2 with
              | Some rest => Some (k, rest)
              | None => None
              end
            else keypad_getkey after_k2
        end
      else keypad_getkey after_k
  end.

End Keypad.

(** ** Input controllers *)

(** [key=='+' || key=='-' || key=='*' || key=='/'] *)
Definition is_operator (key : ascii) : bool :=
  Ascii.eqb key "+"%char || Ascii.eqb key "-"%char
  || Ascii.eqb key "*"%char || Ascii.eqb key "/"%char.

(** [key >= '0' && key <= '9'] *)
Definition is_digit (key : ascii) : bool :=
  (char_val "0"%char <=? char_val key) && (char_val key <=? char_val "9"%char).

(** [(num * 10) + (key - '0')] in [long] arithmetic. *)
Definition push_digit (num : Z) (key : ascii) : Z :=
  Long.add (Long.mul num 10) (char_val key - char_val "0"%char).

(** [lcd_goto(0,0); lcd_print("Enter:"); lcd_goto(1,0);] *)
Definition prompt : M unit :=
  lcd_goto 0 0 ;; lcd_print "Enter:" ;; lcd_goto 1 0.

(** [lcd_init] of calculator.c and part_000. *)
Definition lcd_init : M unit :=
  lcd_cmd 56 ;; lcd_cmd 12 ;; lcd_cmd 6 ;; lcd_clear.

(** *** [main] of calculator.c, lines 178-263 *)

Module CalculatorMain.

Import Calculator.

(** The locals of [main]. *)
Record locals : Type := mkLocals {
  num1 : Z;
  num2 : Z;
  res : Z;
  op : ascii;
  have_op : Z;
  err : Z
}.

Definition initial : locals :=
  {| num1 := 0; num2 := 0; res := 0; op := NUL; have_op := 0; err := 0 |}.

(** [main] up to its loop. *)
Definition startup : M locals :=
  lcd_init ;;
  lcd_goto 0 0 ;; lcd_print "AT89S52 Calc" ;; lcd_clear ;;
  prompt ;;
  ret initial.

(** One turn of [while(1)], after [key = keypad_getkey()]. *)
Definition loop_body (key : ascii) (s : locals) : M locals :=
  if Ascii.eqb key "C"%char then
    lcd_clear ;; prompt ;;
    ret {| num1 := 0; num2 := 0; res := 0; op := NUL; have_op := 0; err := 0 |}
  else if is_operator key then
    if have_op s =? 0 then
      lcd_data " "%char ;; lcd_data key ;; lcd_data " "%char ;;
      ret {| num1 := num1 s; num2 := num2 s; res := res s;
             op := key; have_op := 1; err := err s |}
    else ret s
  else if Ascii.eqb key "="%char then
    if negb (have_op s =? 0) then
      '(r, e) <- calc_apply (num1 s) (num2 s) (op s) (err s) ;;
      lcd_clear ;; lcd_goto 0 0 ;; lcd_print "Result:" ;; lcd_goto 1 0 ;;
      (if negb (e =? 0) then lcd_print "Error: /0" else lcd_print_num r) ;;
      ret {| num1 := if negb (e =? 0) then 0 else r; num2 := 0; res := r;
             op := NUL; have_op := 0; err := e |}
    else ret s
  else if is_digit key then
    lcd_data key ;;
    if have_op s =? 0 then
      ret {| num1 := push_digit (num1 s) key; num2 := num2 s; res := res s;
             op := op s; have_op := have_op s; err := err s |}
    else
      ret {| num1 := num1 s; num2 := push_digit (num2 s) key; res := res s;
             op := op s; have_op := have_op s; err := err s |}
  else ret s.

(** The loop on the keys the scanner delivers, in order. *)
Fixpoint run (keys : list ascii) (s : locals) : M locals :=
  match keys with
  | [] => ret s
  | key :: rest => s' <- loop_body key s ;; run rest s'
  end.

End CalculatorMain.

(** *** [main] of part_000, lines 193-284 *)

Module Part000Main.

Import Part000.

(** The locals of [main]; the fault lives in the global [error_flag]. *)
Record locals : Type := mkLocals {
  num1 : Z;
  num2 : Z;
  res : Z;
  op : ascii;
  have_op : Z
}.

Definition initial : locals :=
  {| num1 := 0; num2 := 0; res := 0; op := NUL; have_op := 0 |}.

Definition startup : M locals :=
  lcd_init ;;
  lcd_goto 0 0 ;; lcd_print "AT89S52 Calc" ;; lcd_clear ;;
  prompt ;;
  ret initial.

Definition loop_body (key : ascii) (s : locals) : M locals :=
  if Ascii.eqb key "C"%char then
    set_error_flag 0 ;;
    lcd_clear ;; prompt ;;
    ret {| num1 := 0; num2 := 0; res := 0; op := NUL; have_op := 0 |}
  else if is_operator key then
    if have_op s =? 0 then
      lcd_data " "%char ;; lcd_data key ;; lcd_data " "%char ;;
      ret {| num1 := num1 s; num2 := num2 s; res := res s;
             op := key; have_op := 1 |}
    else ret s
  else if Ascii.eqb key "="%char then
    if negb (have_op s =? 0) then
      r <- calc_apply (num1 s) (num2 s) (op s) ;;
      lcd_clear ;; lcd_goto 0 0 ;; lcd_print "Result:" ;; lcd_goto 1 0 ;;
      e <- get_error_flag ;;
      (if negb (e =? 0) then lcd_print "Error: /0" else lcd_print_num r) ;;
      e' <- get_error_flag ;;
      ret {| num1 := if negb (e' =? 0) then 0 else r; num2 := 0; res := r;
             op := NUL; have_op := 0 |}
    else ret s
  else if is_digit key then
    lcd_data key ;;
    if have_op s =? 0 then
      ret {| num1 := push_digit (num1 s) key; num2 := num2 s; res := res s;
             op := op s; have_op := have_op s |}
    else
      ret {| num1 := num1 s; num2 := push_digit (num2 s) key; res := res s;
             op := op s; have_op := have_op s |}
  else ret s.

Fixpoint run (keys : list ascii) (s : locals) : M locals :=
  match keys with
  | [] => ret s
  | key :: rest => s' <- loop_body key s ;; run rest s'
  end.

End Part000Main.

(** *** [main] of README.md, lines 161-248 *)

Module ReadmeMain.

Import Readme.

(** The locals of [main]; [have_op] and [err] are of type [bit]. *)
Record locals : Type := mkLocals {
  num1 : Z;
  num2 : Z;
  result : Z;
  op : ascii;
  have_op : bool;
  err : bool
}.

Definition initial : locals :=
  {| num1 := 0; num2 := 0; result := 0; op := NUL;
     have_op := false; err := false |}.

Definition lcd_init : M unit :=
  lcd_cmd 56 ;; lcd_cmd 12 ;; lcd_cmd 1 ;; lcd_cmd 6.

Definition startup : M locals :=
  lcd_init ;;
  lcd_goto 0 0 ;; lcd_print "8051 Calculator" ;; lcd_cmd 1 ;;
  prompt ;;
  ret initial.

Definition loop_body (key : ascii) (s : locals) : M locals :=
  if Ascii.eqb key "C"%char then
    lcd_cmd 1 ;; prompt ;;
    ret {| num1 := 0; num2 := 0; result := 0; op := NUL;
           have_op := false; err := false |}
  else if is_operator key then
    if negb (have_op s) then
      lcd_data " "%char ;; lcd_data key ;; lcd_data " "%char ;;
      ret {| num1 := num1 s; num2 := num2 s; result := result s;
             op := key; have_op := true; err := err s |}
    else ret s
  else if Ascii.eqb key "="%char then
    if have_op s then
      '(r, e) <- apply_op (num1 s) (num2 s) (op s) (err s) ;;
      lcd_cmd 1 ;; lcd_goto 0 0 ;; lcd_print "Result:" ;; lcd_goto 1 0 ;;
      (if e then lcd_print "Error: /0" else lcd_print_num r) ;;
      ret {| num1 := if e then 0 else r; num2 := 0; result := r;
             op := NUL; have_op := false; err := e |}
    else ret s
  else if is_digit key then
    lcd_data key ;;
    if negb (have_op s) then
      ret {| num1 := push_digit (num1 s) key; num2 := num2 s;
             result := result s; op := op s; have_op := have_op s;
             err := err s |}
    else
      ret {| num1 := num1 s; num2 := push_digit (num2 s) key;
             result := result s; op := op s; have_op := have_op s;
             err := err s |}
  else ret s.

Fixpoint run (keys : list ascii) (s : locals) : M locals :=
  match keys with
  | [] => ret s
  | key :: rest => s' <- loop_body key s ;; run rest s'
  end.

End ReadmeMain.

(** ** Keypad of README.md, lines 96-142 *)

Module ReadmeKeypad.

(** [const char keymap[4][4]]. *)
Definition keymap : list (list ascii) :=
  [ ["1"; "2"; "3"; "+"];
    ["4"; "5"; "6"; "-"];
    ["7"; "8"; "9"; "*"];
    ["C"; "0"; "="; "/"] ]%char.

Definition keymap_at (row col : nat) : ascii :=
  nth col (nth row keymap []) NUL.

(** One read of the port [KEYPAD]: the byte on the pins as a function of
    the row line that is driven low at that moment.  The function consumes
    one sample per read of the pins; the read-modify-write statements that
    set the row lines act on the port latch and consume none. *)
Definition sample : Type := nat -> Z.

(** [(KEYPAD & 0xF0) != 0xF0] *)
Definition column_low (v : Z) : bool := negb (Z.land v 240 =? 240).

(** [for(row = 0; row < 4; row++)] inside [while(1)]. *)
Definition next_row (row : nat) : nat :=
  if (S row <? 4)%nat then S row else 0%nat.

(** The chain [if((KEYPAD & 0x10) == 0) col = 0; else if ... else col = 0;]:
    every test reads the port again. *)
Definition find_col (row : nat) (pins : list sample)
  : option (nat * list sample) :=
  match pins with
  | [] => None
  | p1 :: r1 =>
    if Z.land (p1 row) 16 =? 0 then Some (0%nat, r1) else
    match r1 with
    | [] => None
    | p2 :: r2 =>
      if Z.land (p2 row) 32 =? 0 then Some (1%nat, r2) else
      match r2 with
      | [] => None
      | p3 :: r3 =>
        if Z.land (p3 row) 64 =? 0 then Some (2%nat, r3) else
        match r3 with
        | [] => None
        | p4 :: r4 =>
          if Z.land (p4 row) 128 =? 0 then Some (3%nat, r4)
          else Some (0%nat, r4)
        end
      end
    end
  end.

(** [while((KEYPAD & 0xF0) != 0xF0);] *)
Fixpoint wait_release (row : nat) (pins : list sample)
  : option (list sample) :=
  match pins with
  | [] => None
  | p :: rest =>
      if column_low (p row) then wait_release row rest else Some rest
  end.

(** The scan from the moment row [row] has been driven low. *)
Fixpoint scan_from (row : nat) (pins : list sample)
  : option (ascii * list sample) :=
  match pins with
  | [] => None
  | p1 :: after1 =>
      if column_low (p1 row) then
        (* delay_ms(20), then the second read *)
        match after1 with
        | [] => None
        | p2 :: after2 =>
            if column_low (p2 row) then
              match find_col row after2 with
              | Some (col, after_col) =>
                  match wait_release row after_col with
                  | Some rest => Some (keymap_at row col, rest)
                  | None => None
                  end
              | None => None
              end
            else scan_from (next_row row) after2
        end
      else scan_from (next_row row) after1
  end.

Definition keypad_getkey (pins : list sample) : option (ascii * list sample) :=
  scan_from 0%nat pins.

End ReadmeKeypad.

(** ** The display functions on the pins

    The same functions as written in the files, statement by statement: the
    three control lines, the data port, and the calls of [delay_ms]. *)

Inductive pin_op : Type :=
| SetRS (level : bool)
| SetRW (level : bool)
| SetEN (level : bool)
| SetDATA (byte : Z)
| DelayMs (ms : Z).

(** calculator.c, lines 30-58, and part_000, lines 36-64. *)
Module LcdPins.

Definition lcd_pulse : list pin_op :=
  [SetEN true; DelayMs 2; SetEN false; DelayMs 2].

Definition lcd_cmd (cmd : Z) : list pin_op :=
  [SetRS false; SetRW false; SetDATA (cmd mod 256)] ++ lcd_pulse.

Definition lcd_data (dat : ascii) : list pin_op :=
  [SetRS true; SetRW false; SetDATA (Z.of_N (N_of_ascii dat))] ++ lcd_pulse.

Definition lcd_clear : list pin_op := lcd_cmd 1 ++ [DelayMs 2].

Definition lcd_init : list pin_op :=
  [DelayMs 20] ++ lcd_cmd 56 ++ lcd_cmd 12 ++ lcd_cmd 6 ++ lcd_clear.

End LcdPins.

(** README.md, lines 22-54. *)
Module ReadmeLcdPins.

Definition lcd_pulse_enable : list pin_op :=
  [SetEN true; DelayMs 2; SetEN false].

Definition lcd_cmd (cmd : Z) : list pin_op :=
  [SetRS false; SetRW false; SetDATA (cmd mod 256)]
  ++ lcd_pulse_enable ++ [DelayMs 2].

Definition lcd_data (dat : ascii) : list pin_op :=
  [SetRS true; SetRW false; SetDATA (Z.of_N (N_of_ascii dat))]
  ++ lcd_pulse_enable ++ [DelayMs 2].

Definition lcd_init : list pin_op :=
  [DelayMs 20] ++ lcd_cmd 56 ++ lcd_cmd 12 ++ lcd_cmd 1 ++ lcd_cmd 6.

End ReadmeLcdPins.

(** ** The delay loop (the same in the three files; calculator.c, lines 22-27)

    [unsigned int] has 16 bits.  The loops are run on a budget of steps,
    [None] when it is used up; the result is the number of times the empty
    inner body was reached. *)

Definition wrap16 (z : Z) : Z := z mod 65536.

(** [for(j = 0; j < 123; j++);] from the test of [j] on. *)
Fixpoint delay_inner (budget : nat) (j spins : Z) : option Z :=
  match budget with
  | O => None
  | S budget' =>
      if j <? 123 then delay_inner budget' (wrap16 (j + 1)) (spins + 1)
      else Some spins
  end.

(** [for(i = 0; i < ms; i++) ...] from the test of [i] on. *)
Fixpoint delay_outer (budget inner_budget : nat) (i ms spins : Z)
    : option Z :=
  match budget with
  | O => None
  | S budget' =>
      if i <? ms then
        match delay_inner inner_budget 0 spins with
        | Some spins' =>
            delay_outer budget' inner_budget (wrap16 (i + 1)) ms spins'
        | None => None
        end
      else Some spins
  end.

Definition delay_ms (budget : nat) (ms : Z) : option Z :=
  delay_outer budget budget 0 ms 0.

(** * Vocabulary of the properties *)

(** [r] is the value a 32-bit [long] takes for the exact integer [exact]:
    in range and congruent to it modulo 2^32. *)
Definition fixed_width (exact r : Z) : Prop :=
  Long.in_range r /\ exists k, r = exact + k * 2 ^ 32.

(** [q] is [a] divided by [b] rounded toward zero: the remainder is smaller
    than the divisor in absolute value and never has the sign opposite to the
    dividend's. *)
Definition truncated_quotient (a b q : Z) : Prop :=
  exists rm, a = b * q + rm /\ Z.abs rm < Z.abs b /\ 0 <= rm * a.

(** The evaluator as the specification words it (section 4.2): a function
    from two operands and an operator symbol to a result and a fault bit.
    The three C functions are compared with it below. *)
Definition spec_apply (a b : Z) (op : ascii) : Z * bool :=
  if Ascii.eqb op "+"%char then (Long.wrap (a + b), false)
  else if Ascii.eqb op "-"%char then (Long.wrap (a - b), false)
  else if Ascii.eqb op "*"%char then (Long.wrap (a * b), false)
  else if Ascii.eqb op "/"%char then
    if b =? 0 then (0, true) else (Long.wrap (Z.quot a b), false)
  else (b, false).

Definition fault_byte (f : bool) : Z := if f then 1 else 0.

(** "The evaluator returns result [r] and fault [f] on [(a, b, op)]", for
    each of the three C functions, from every content of the fault cell and
    every machine state, and with nothing else changed. *)
Definition evaluates (a b : Z) (op : ascii) (r : Z) (f : bool) : Prop :=
  (forall e m, Calculator.calc_apply a b op e m = Some ((r, fault_byte f), m))
  /\ (forall m, Part000.calc_apply a b op m
                = Some (r, {| lcd_bus := lcd_bus m; error_flag := fault_byte f |}))
  /\ (forall e m, Readme.apply_op a b op e m = Some ((r, f), m)).


(** The machine at reset: nothing sent to the display, and the initialiser
    [unsigned char error_flag = 0] of part_000. *)
Definition power_on : machine := {| lcd_bus := []; error_flag := 0 |}.

Definition keys (s : string) : list ascii := list_ascii_of_string s.

(** [main] run from reset on a sequence of keys. *)
Definition calculator_session (ks : string) : option (CalculatorMain.locals * machine) :=
  (s0 <- CalculatorMain.startup ;; CalculatorMain.run (keys ks) s0) power_on.

Definition part000_session (ks : string) : option (Part000Main.locals * machine) :=
  (s0 <- Part000Main.startup ;; Part000Main.run (keys ks) s0) power_on.

Definition readme_session (ks : string) : option (ReadmeMain.locals * machine) :=
  (s0 <- ReadmeMain.startup ;; ReadmeMain.run (keys ks) s0) power_on.

(** The characters written to the display since it was last cleared
    (command 0x01), in the order written. *)
Fixpoint written_from (bus : list lcd_event) (acc : string) : string :=
  match bus with
  | [] => acc
  | LcdCmd cmd :: rest =>
      if cmd =? 1 then written_from rest EmptyString else written_from rest acc
  | LcdData c :: rest => written_from rest (acc ++ String c EmptyString)
  end.

Definition written (m : machine) : string := written_from (lcd_bus m) EmptyString.

(** The cells the digit loop writes, [buf[0]] first. *)
Fixpoint digits_lsb (room : nat) (n : Z) : list ascii :=
  match room with
  | O => []
  | S room' =>
      if 0 <? n then
        to_char (Long.add (Long.wrap (Z.rem n 10)) (char_val "0"%char))
          :: digits_lsb room' (Long.wrap (Z.quot n 10))
      else []
  end.

(** The characters [lcd_print_num n] sends, in order. *)
Definition rendering (n : Z) : list ascii :=
  if n =? 0 then ["0"%char]
  else if n <? 0 then "-"%char :: rev (digits_lsb 11 (Long.neg n))
  else rev (digits_lsb 11 n).

Definition send (out : list ascii) (m : machine) : machine :=
  {| lcd_bus := lcd_bus m ++ map LcdData out; error_flag := error_flag m |}.

(** Value of a string of decimal digits, most significant first. *)
Definition digit_value (c : ascii) : Z := char_val c - char_val "0"%char.

Definition decimal_value (ds : list ascii) : Z :=
  fold_left (fun acc c => acc * 10 + digit_value c) ds 0.

(** A non-empty string of decimal digits that does not start with '0'. *)
Definition plain_digits (ds : list ascii) : Prop :=
  ds <> [] /\ Forall (fun c => is_digit c = true) ds /\ hd NUL ds <> "0"%char.

(** [s] is the decimal representation of [n]. *)
Definition decimal_repr (n : Z) (s : list ascii) : Prop :=
  (n = 0 /\ s = ["0"%char])
  \/ (0 < n /\ plain_digits s /\ decimal_value s = n)
  \/ (n < 0 /\ exists ds, s = "-"%char :: ds /\ plain_digits ds
                          /\ decimal_value ds = - n).

(** What a session leaves: operand 1, operand 2, [have_op], and the text on
    the display. *)
Definition calculator_shows (ks : string) : option (Z * Z * Z * string) :=
  option_map
    (fun sm => (CalculatorMain.num1 (fst sm), CalculatorMain.num2 (fst sm),
                CalculatorMain.have_op (fst sm), written (snd sm)))
    (calculator_session ks).

Definition part000_shows (ks : string) : option (Z * Z * Z * string) :=
  option_map
    (fun sm => (Part000Main.num1 (fst sm), Part000Main.num2 (fst sm),
                Part000Main.have_op (fst sm), written (snd sm)))
    (part000_session ks).

Definition readme_shows (ks : string) : option (Z * Z * bool * string) :=
  option_map
    (fun sm => (ReadmeMain.num1 (fst sm), ReadmeMain.num2 (fst sm),
                ReadmeMain.have_op (fst sm), written (snd sm)))
    (readme_session ks).

(** The states [main] of calculator.c can be in at the top of its loop. *)
Inductive calculator_reachable : CalculatorMain.locals -> Prop :=
| calculator_reach_initial : calculator_reachable CalculatorMain.initial
| calculator_reach_step key s m s' m' :
    calculator_reachable s ->
    CalculatorMain.loop_body key s m = Some (s', m') ->
    calculator_reachable s'.

Inductive part000_reachable : Part000Main.locals -> Prop :=
| part000_reach_initial : part000_reachable Part000Main.initial
| part000_reach_step key s m s' m' :
    part000_reachable s ->
    Part000Main.loop_body key s m = Some (s', m') ->
    part000_reachable s'.

(** Either no operator is pending, or exactly one of the four is. *)
Definition pending_ok (have_op : Z) (op : ascii) : Prop :=
  (have_op = 0 /\ op = NUL) \/ (have_op = 1 /\ is_operator op = true).

(** Readings [keypad_getkey] consumes without returning: scans that found no
    key, and candidates whose confirmation scan read something else. *)
Inductive rejected : list ascii -> Prop :=
| rejected_none : rejected []
| rejected_idle rest : rejected rest -> rejected (NUL :: rest)
| rejected_bounce k k2 rest :
    k <> NUL -> k2 <> k -> rejected rest -> rejected (k :: k2 :: rest).

Definition held_down (scans : list ascii) : Prop :=
  Forall (fun c => c <> NUL) scans.


(** The readings one call consumes when it returns [k]: rejected readings,
    a scan that reads [k], a confirmation scan after the debounce delay that
    reads [k] again, scans with a key still down, and a scan that reads
    nothing. *)
Definition accepted (k : ascii) (scans rest : list ascii) : Prop :=
  exists noise held,
    scans = noise ++ k :: k :: held ++ NUL :: rest
    /\ k <> NUL /\ rejected noise /\ held_down held.

(** The symbols [main] receives from a finite run of scanner readings:
    [keypad_getkey] called again and again on what the previous call left. *)
Fixpoint keys_upto (calls : nat) (scans : list ascii) : list ascii :=
  match calls with
  | O => []
  | S calls' =>
      match Keypad.keypad_getkey scans with
      | Some (k, rest) => k :: keys_upto calls' rest
      | None => []
      end
  end.

Definition keys_of (scans : list ascii) : list ascii :=
  keys_upto (List.length scans) scans.


(** Samples the scan passes over, and the row it has reached after them:
    a row on which no column reads low, or a row on which a column read low
    and none did after the debounce delay. *)
Inductive passed_over : nat -> list ReadmeKeypad.sample -> nat -> Prop :=
| passed_none row : passed_over row [] row
| passed_idle row p rest row' :
    ReadmeKeypad.column_low (p row) = false ->
    passed_over (ReadmeKeypad.next_row row) rest row' ->
    passed_over row (p :: rest) row'
| passed_bounce row p1 p2 rest row' :
    ReadmeKeypad.column_low (p1 row) = true ->
    ReadmeKeypad.column_low (p2 row) = false ->
    passed_over (ReadmeKeypad.next_row row) rest row' ->
    passed_over row (p1 :: p2 :: rest) row'.

(** The samples a scan started on row [row0] consumes when it returns [k]:
    samples passed over up to some row, on that row a sample with some
    column low, after the debounce delay a sample with some column low,
    the samples that decide the column, samples with a column still low,
    and one with none low. *)
Definition readme_accepted
    (row0 : nat) (k : ascii) (pins rest : list ReadmeKeypad.sample) : Prop :=
  exists row pre p1 p2 after2 col held p_rel,
    pins = pre ++ p1 :: p2 :: after2
    /\ passed_over row0 pre row
    /\ ReadmeKeypad.column_low (p1 row) = true
    /\ ReadmeKeypad.column_low (p2 row) = true
    /\ ReadmeKeypad.find_col row after2 = Some (col, held ++ p_rel :: rest)
    /\ Forall (fun p => ReadmeKeypad.column_low (p row) = true) held
    /\ ReadmeKeypad.column_low (p_rel row) = false
    /\ k = ReadmeKeypad.keymap_at row col.




(** ** The controller seen from outside *)

(** What the three [main] functions have in common: the two operands, the
    operator and whether one is pending.  ([res]/[result] is only written;
    the fault cell is read only right after the evaluator has written it.) *)
Record view : Type := mkView {
  v_num1 : Z;
  v_num2 : Z;
  v_op : ascii;
  v_pending : bool
}.

Definition calculator_view (s : CalculatorMain.locals) : view :=
  {| v_num1 := CalculatorMain.num1 s; v_num2 := CalculatorMain.num2 s;
     v_op := CalculatorMain.op s;
     v_pending := negb (CalculatorMain.have_op s =? 0) |}.

Definition part000_view (s : Part000Main.locals) : view :=
  {| v_num1 := Part000Main.num1 s; v_num2 := Part000Main.num2 s;
     v_op := Part000Main.op s;
     v_pending := negb (Part000Main.have_op s =? 0) |}.

Definition readme_view (s : ReadmeMain.locals) : view :=
  {| v_num1 := ReadmeMain.num1 s; v_num2 := ReadmeMain.num2 s;
     v_op := ReadmeMain.op s; v_pending := ReadmeMain.have_op s |}.

(** The bytes a string puts on the display. *)
Definition text (s : string) : list lcd_event := map LcdData (keys s).

(** Display clear, and the prompt that follows it on 'C'. *)
Definition prompt_events : list lcd_event :=
  [LcdCmd 1; LcdCmd 128] ++ text "Enter:" ++ [LcdCmd 192].

Definition result_events (r : Z) (f : bool) : list lcd_event :=
  [LcdCmd 1; LcdCmd 128] ++ text "Result:" ++ [LcdCmd 192]
  ++ (if f then text "Error: /0" else map LcdData (rendering r)).

(** One key, as a function of the view: the next view and the bytes sent to
    the display. *)
Definition controller_step (key : ascii) (v : view) : view * list lcd_event :=
  if Ascii.eqb key "C"%char then
    ({| v_num1 := 0; v_num2 := 0; v_op := NUL; v_pending := false |},
     prompt_events)
  else if is_operator key then
    if v_pending v then (v, [])
    else ({| v_num1 := v_num1 v; v_num2 := v_num2 v; v_op := key;
             v_pending := true |},
          [LcdData " "%char; LcdData key; LcdData " "%char])
  else if Ascii.eqb key "="%char then
    if v_pending v then
      let rf := spec_apply (v_num1 v) (v_num2 v) (v_op v) in
      ({| v_num1 := if snd rf then 0 else fst rf; v_num2 := 0; v_op := NUL;
          v_pending := false |},
       result_events (fst rf) (snd rf))
    else (v, [])
  else if is_digit key then
    (if v_pending v then
       {| v_num1 := v_num1 v; v_num2 := push_digit (v_num2 v) key;
          v_op := v_op v; v_pending := v_pending v |}
     else
       {| v_num1 := push_digit (v_num1 v) key; v_num2 := v_num2 v;
          v_op := v_op v; v_pending := v_pending v |},
     [LcdData key])
  else (v, []).

Fixpoint controller_run (ks : list ascii) (v : view) : view * list lcd_event :=
  match ks with
  | [] => (v, [])
  | key :: rest =>
      let (v1, out1) := controller_step key v in
      let (v2, out2) := controller_run rest v1 in
      (v2, out1 ++ out2)
  end.

Definition initial_view : view :=
  {| v_num1 := 0; v_num2 := 0; v_op := NUL; v_pending := false |}.

(** A run of digit keys. *)
Definition all_digits (ds : list ascii) : Prop :=
  Forall (fun c => is_digit c = true) ds.

(** ** Vocabulary for the keypads *)

(** The symbols [keypad_scan] of calculator.c returns, by column driven low
    ([C1] first) and row line read ([R1] first). *)
Definition scan_layout : list (list ascii) :=
  [ ["7"; "4"; "1"; "C"];
    ["8"; "5"; "2"; "0"];
    ["9"; "6"; "3"; "="];
    ["/"; "*"; "-"; "+"] ]%char.

Definition scan_key (col row : nat) : ascii :=
  nth row (nth col scan_layout []) NUL.

(** Position of a crossing in the order [keypad_scan] tests them. *)
Definition scan_rank (col row : nat) : nat := (4 * col + row)%nat.

(** A key every [main] has a branch for. *)
Definition recognised (k : ascii) : Prop :=
  k = "C"%char \/ is_operator k = true \/ k = "="%char \/ is_digit k = true.

(** Number of scans that found no key. *)
Definition releases (scans : list ascii) : nat := count_occ ascii_dec scans NUL.

(** ** Vocabulary for the pins of the display *)

(** The levels of the control lines and the byte on the data port. *)
Record lcd_pins : Type := mkPins {
  pin_RS : bool;
  pin_RW : bool;
  pin_EN : bool;
  pin_DATA : Z
}.

Definition drive (p : lcd_pins) (o : pin_op) : lcd_pins :=
  match o with
  | SetRS b => {| pin_RS := b; pin_RW := pin_RW p; pin_EN := pin_EN p;
                  pin_DATA := pin_DATA p |}
  | SetRW b => {| pin_RS := pin_RS p; pin_RW := b; pin_EN := pin_EN p;
                  pin_DATA := pin_DATA p |}
  | SetEN b => {| pin_RS := pin_RS p; pin_RW := pin_RW p; pin_EN := b;
                  pin_DATA := pin_DATA p |}
  | SetDATA v => {| pin_RS := pin_RS p; pin_RW := pin_RW p;
                    pin_EN := pin_EN p; pin_DATA := v |}
  | DelayMs _ => p
  end.

(** What the display takes in: on every fall of [EN] with [RW] low, the
    byte on the data port, as a command if [RS] is low and as data if it is
    high. *)
Fixpoint latched (p : lcd_pins) (ops : list pin_op) : list lcd_event :=
  match ops with
  | [] => []
  | o :: rest =>
      let taken :=
        match o with
        | SetEN false =>
            if pin_EN p && negb (pin_RW p) then
              [if pin_RS p then LcdData (to_char (pin_DATA p))
               else LcdCmd (pin_DATA p)]
            else []
        | _ => []
        end in
      taken ++ latched (drive p o) rest
  end.

Definition pins_after (p : lcd_pins) (ops : list pin_op) : lcd_pins :=
  fold_left drive ops p.

(** [RS], [RW] and the data port are written only while [EN] is low, and
    [EN] stays high across a delay of at least [ms] milliseconds. *)
Fixpoint pulse_timing (ms : Z) (p : lcd_pins) (high_for : Z)
    (ops : list pin_op) : bool :=
  match ops with
  | [] => true
  | o :: rest =>
      match o with
      | SetEN true => pulse_timing ms (drive p o) 0 rest
      | SetEN false =>
          (negb (pin_EN p) || (ms <=? high_for))
          && pulse_timing ms (drive p o) 0 rest
      | DelayMs d => pulse_timing ms p (high_for + d) rest
      | _ => negb (pin_EN p) && pulse_timing ms (drive p o) high_for rest
      end
  end.

(** The pin activity of a sequence of display requests, each made through
    [lcd_cmd] or [lcd_data] of calculator.c. *)
Definition pins_of_event (e : lcd_event) : list pin_op :=
  match e with
  | LcdCmd cmd => LcdPins.lcd_cmd cmd
  | LcdData dat => LcdPins.lcd_data dat
  end.

Definition readme_pins_of_event (e : lcd_event) : list pin_op :=
  match e with
  | LcdCmd cmd => ReadmeLcdPins.lcd_cmd cmd
  | LcdData dat => ReadmeLcdPins.lcd_data dat
  end.

Definition byte_event (e : lcd_event) : lcd_event :=
  match e with
  | LcdCmd cmd => LcdCmd (cmd mod 256)
  | LcdData dat => LcdData dat
  end.

(** A key press as the scanner sees it: [gap] scans with no key down, the
    key read by [2 + extra] scans in a row, and the scan that finds it
    released. *)
Record press : Type := mkPress {
  press_gap : nat;
  press_key : ascii;
  press_extra : nat
}.

Definition press_scans (p : press) : list ascii :=
  repeat NUL (press_gap p)
  ++ repeat (press_key p) (2 + press_extra p) ++ [NUL].

(** The characters of a byte string that come before its first 0 byte. *)
Fixpoint until_nul (l : list ascii) : list ascii :=
  match l with
  | [] => []
  | c :: rest => if Ascii.eqb c NUL then [] else c :: until_nul rest
  end.

(** * Properties *)

(** ** Wrap-around arithmetic *)

Lemma wrap_in_range z : Long.in_range (Long.wrap z).
Proof.
  unfold Long.in_range, Long.wrap, Long.min_long, Long.max_long.
  pose proof (Z.mod_pos_bound (z + 2 ^ 31) (2 ^ 32) ltac:(lia)). lia.
Qed.

Lemma wrap_congruent z : exists k, Long.wrap z = z + k * 2 ^ 32.
Proof.
  exists (- ((z + 2 ^ 31) / 2 ^ 32)). unfold Long.wrap.
  pose proof (Z.div_mod (z + 2 ^ 31) (2 ^ 32) ltac:(lia)). lia.
Qed.

Lemma wrap_fixed_width z : fixed_width z (Long.wrap z).
Proof. split; [apply wrap_in_range | apply wrap_congruent]. Qed.

Lemma wrap_id z : Long.in_range z -> Long.wrap z = z.
Proof.
  unfold Long.in_range, Long.wrap, Long.min_long, Long.max_long. intros H.
  rewrite Z.mod_small; lia.
Qed.

Lemma fixed_width_unique exact r1 r2 :
  fixed_width exact r1 -> fixed_width exact r2 -> r1 = r2.
Proof.
  unfold fixed_width, Long.in_range, Long.min_long, Long.max_long.
  intros [H1 [k1 E1]] [H2 [k2 E2]]. lia.
Qed.

Lemma quot_truncated a b : b <> 0 -> truncated_quotient a b (Z.quot a b).
Proof.
  intros Hb. exists (Z.rem a b). split; [|split].
  - apply Z.quot_rem'.
  - apply Z.rem_bound_abs; assumption.
  - apply Z.rem_sign_mul; assumption.
Qed.

Lemma truncated_quotient_unique a b q1 q2 :
  truncated_quotient a b q1 -> truncated_quotient a b q2 -> q1 = q2.
Proof.
  intros [r1 [E1 [B1 S1]]] [r2 [E2 [B2 S2]]].
  assert (Hd : Z.abs (b * (q1 - q2)) < Z.abs b).
  { replace (b * (q1 - q2)) with (r2 - r1) by lia.
    destruct (Z.lt_trichotomy a 0) as [Ha | [Ha | Ha]].
    - assert (r1 <= 0) by nia. assert (r2 <= 0) by nia. lia.
    - subst a. assert (Z.abs (b * q1) < Z.abs b) by (replace (b * q1) with (- r1) by lia; lia).
      assert (Z.abs (b * q2) < Z.abs b) by (replace (b * q2) with (- r2) by lia; lia).
      rewrite Z.abs_mul in *. assert (q1 = 0) by nia. assert (q2 = 0) by nia.
      subst. lia.
    - assert (0 <= r1) by nia. assert (0 <= r2) by nia. lia. }
  rewrite Z.abs_mul in Hd. nia.
Qed.

Lemma quot_in_range a b :
  Long.in_range a -> Long.in_range b -> b <> 0 ->
  (a <> Long.min_long \/ b <> -1) -> Long.in_range (Z.quot a b).
Proof.
  unfold Long.in_range, Long.min_long, Long.max_long. intros Ha Hb Hb0 Hc.
  assert (Hq : Z.abs (Z.quot a b) <= Z.abs a).
  { rewrite <- Z.quot_abs by assumption.
    apply Z.quot_le_upper_bound; [lia | nia]. }
  destruct (Z.eq_dec b (-1)) as [-> | Hb1].
  - rewrite <- (Z.opp_involutive (Z.quot a (-1))), <- Z.quot_opp_r by lia.
    simpl Z.opp. rewrite Z.quot_1_r. lia.
  - destruct (Z.eq_dec b 1) as [-> | Hb2]; [rewrite Z.quot_1_r; lia |].
    assert (Hq2 : 2 * Z.abs (Z.quot a b) <= Z.abs a).
    { rewrite <- Z.quot_abs by assumption.
      pose proof (Z.mul_quot_le (Z.abs a) (Z.abs b) ltac:(lia) ltac:(lia)).
      pose proof (Z.quot_pos (Z.abs a) (Z.abs b) ltac:(lia) ltac:(lia)).
      nia. }
    lia.
Qed.

(** ** The evaluator *)

Ltac eval_cases op b :=
  repeat match goal with
  | |- context [Ascii.eqb op ?c] => destruct (Ascii.eqb op c)
  end;
  try reflexivity;
  destruct (b =? 0); reflexivity.

Lemma calculator_calc_apply_spec a b op e m :
  Calculator.calc_apply a b op e m
  = Some ((fst (spec_apply a b op), fault_byte (snd (spec_apply a b op))), m).
Proof.
  unfold Calculator.calc_apply, spec_apply, Long.div, Long.add, Long.sub,
    Long.mul, undefined_or, bind, ret.
  eval_cases op b.
Qed.

Lemma part000_calc_apply_spec a b op m :
  Part000.calc_apply a b op m
  = Some (fst (spec_apply a b op),
          {| lcd_bus := lcd_bus m;
             error_flag := fault_byte (snd (spec_apply a b op)) |}).
Proof.
  unfold Part000.calc_apply, spec_apply, Long.div, Long.add, Long.sub,
    Long.mul, undefined_or, bind, ret, set_error_flag.
  eval_cases op b.
Qed.

Lemma readme_apply_op_spec a b op e m :
  Readme.apply_op a b op e m = Some (spec_apply a b op, m).
Proof.
  unfold Readme.apply_op, spec_apply, Long.div, Long.add, Long.sub,
    Long.mul, undefined_or, bind, ret.
  eval_cases op b.
Qed.

Lemma evaluates_spec a b op :
  evaluates a b op (fst (spec_apply a b op)) (snd (spec_apply a b op)).
Proof.
  split; [|split]; intros.
  - apply calculator_calc_apply_spec.
  - apply part000_calc_apply_spec.
  - rewrite readme_apply_op_spec. destruct (spec_apply a b op); reflexivity.
Qed.

(** C1, as the code has it.  With operator '/' and second operand 0 the
    evaluator returns result 0 with the fault set, from every first operand,
    and does so without dividing: the quotient [a / 0] has no value, the
    call has one.  With a second operand other than 0 the fault is clear and
    the result is the quotient of [a] by [b] rounded toward zero, reduced to
    the 32 bits of a [long] by wrap-around: the exact quotient for every
    pair of operands but [-2^31] and [-1]. *)
Theorem division_fault_and_truncation (a b : Z) :
  (Long.div a 0 = None /\ evaluates a 0 "/"%char 0 true)
  /\ (Long.in_range a -> Long.in_range b -> b <> 0 ->
      exists q r,
        truncated_quotient a b q /\ fixed_width q r
        /\ (a <> Long.min_long \/ b <> -1 -> r = q)
        /\ evaluates a b "/"%char r false).
Proof.
  split.
  - split; [reflexivity | apply (evaluates_spec a 0 "/"%char)].
  - intros Ha Hb Hb0. exists (Z.quot a b), (Long.wrap (Z.quot a b)).
    split; [apply quot_truncated; assumption |].
    split; [apply wrap_fixed_width |].
    split; [intros Hc; apply wrap_id, quot_in_range; assumption |].
    pose proof (evaluates_spec a b "/"%char) as H.
    unfold spec_apply in H. simpl Ascii.eqb in H. cbv iota in H.
    destruct (Z.eqb_spec b 0) as [Hz | _]; [contradiction | exact H].
Qed.

Ltac long_range :=
  unfold Long.in_range, Long.min_long, Long.max_long; lia.

Lemma division_fault_and_truncation_witness :
  Long.in_range (-7) /\ Long.in_range 2 /\ 2 <> 0
  /\ exists q r,
       truncated_quotient (-7) 2 q /\ fixed_width q r
       /\ (-7 <> Long.min_long \/ 2 <> -1 -> r = q)
       /\ evaluates (-7) 2 "/"%char r false.
Proof.
  split; [long_range | split; [long_range | split; [lia |]]].
  apply (proj2 (division_fault_and_truncation (-7) 2));
    [long_range | long_range | lia].
Defined.

(** C1 as stated fails at one pair of operands.  The quotient of [-2^31]
    by [-1] rounded toward zero is [2^31], which no [long] holds; the
    evaluator returns [-2^31] with the fault clear.  The keys
    2147483648 / 4294967295 = bring [main] there: both numbers wrap on
    entry, to [-2^31] and to [-1]. *)
Lemma division_min_by_minus_one :
  Long.in_range (-2147483648) /\ Long.in_range (-1) /\ -1 <> 0
  /\ truncated_quotient (-2147483648) (-1) 2147483648
  /\ ~ Long.in_range 2147483648
  /\ evaluates (-2147483648) (-1) "/"%char (-2147483648) false
  /\ -2147483648 <> 2147483648
  /\ calculator_shows "2147483648/4294967295="
     = Some (-2147483648, 0, 0, "Result:-"%string).
Proof.
  split; [long_range |]. split; [long_range |]. split; [lia |].
  split; [exists 0; lia |].
  split; [unfold Long.in_range, Long.max_long; lia |].
  split; [exact (evaluates_spec (-2147483648) (-1) "/"%char) |].
  split; [lia | vm_compute; reflexivity].
Qed.

Lemma evaluates_at a b op r :
  spec_apply a b op = (r, false) -> evaluates a b op r false.
Proof.
  intros H. pose proof (evaluates_spec a b op) as E.
  rewrite H in E. exact E.
Qed.

(** C2. On operands of type [long], the operators '+', '-' and '*', and '/'
    with a second operand other than 0, return with the fault clear a result
    that is the exact sum, difference, product, or quotient rounded toward
    zero, reduced to 32 bits by wrap-around. *)
Theorem fixed_width_arithmetic (a b : Z) :
  Long.in_range a -> Long.in_range b ->
  (exists r, fixed_width (a + b) r /\ evaluates a b "+"%char r false)
  /\ (exists r, fixed_width (a - b) r /\ evaluates a b "-"%char r false)
  /\ (exists r, fixed_width (a * b) r /\ evaluates a b "*"%char r false)
  /\ (b <> 0 ->
      exists q r, truncated_quotient a b q /\ fixed_width q r
                  /\ evaluates a b "/"%char r false).
Proof.
  intros _ _. repeat split.
  - exists (Long.wrap (a + b)). split; [apply wrap_fixed_width |].
    apply evaluates_at. reflexivity.
  - exists (Long.wrap (a - b)). split; [apply wrap_fixed_width |].
    apply evaluates_at. reflexivity.
  - exists (Long.wrap (a * b)). split; [apply wrap_fixed_width |].
    apply evaluates_at. reflexivity.
  - intros Hb. exists (Z.quot a b), (Long.wrap (Z.quot a b)).
    split; [apply quot_truncated; assumption |].
    split; [apply wrap_fixed_width |].
    apply evaluates_at. unfold spec_apply. simpl Ascii.eqb. cbv iota.
    destruct (Z.eqb_spec b 0); [contradiction | reflexivity].
Qed.

Lemma fixed_width_arithmetic_witness :
  Long.in_range 2147483647 /\ Long.in_range 1
  /\ (exists r, fixed_width (2147483647 + 1) r
                /\ evaluates 2147483647 1 "+"%char r false)
  /\ (exists r, fixed_width (2147483647 - 1) r
                /\ evaluates 2147483647 1 "-"%char r false)
  /\ (exists r, fixed_width (2147483647 * 1) r
                /\ evaluates 2147483647 1 "*"%char r false)
  /\ (1 <> 0 ->
      exists q r, truncated_quotient 2147483647 1 q /\ fixed_width q r
                  /\ evaluates 2147483647 1 "/"%char r false).
Proof.
  split; [long_range | split; [long_range |]].
  apply (fixed_width_arithmetic 2147483647 1); long_range.
Defined.

(** The result is the exact value whenever that value is a [long]. *)
Lemma fixed_width_exact exact r :
  Long.in_range exact -> fixed_width exact r -> r = exact.
Proof.
  intros He Hr. apply (fixed_width_unique exact); [exact Hr |].
  rewrite <- (wrap_id exact He) at 2. apply wrap_fixed_width.
Qed.

(** C10. On every triple [(a, b, op)] the three evaluators return the same
    number and the same fault indication: 0/1 in the cell behind [err]
    (calculator.c), 0/1 in [error_flag] (part_000), a bit behind [err]
    (README.md). *)
Theorem evaluator_variants_agree
    (a b : Z) (op : ascii) (e : Z) (eb : bool) (m1 m2 m3 : machine) :
  exists r f m1' m2' m3',
    Calculator.calc_apply a b op e m1 = Some ((r, fault_byte f), m1')
    /\ Part000.calc_apply a b op m2 = Some (r, m2')
    /\ error_flag m2' = fault_byte f
    /\ Readme.apply_op a b op eb m3 = Some ((r, f), m3').
Proof.
  destruct (evaluates_spec a b op) as [Hc [Hp Hr]].
  exists (fst (spec_apply a b op)), (snd (spec_apply a b op)).
  eexists _, _, _. split; [apply Hc |]. split; [apply Hp |].
  split; [reflexivity | apply Hr].
Qed.



(** ** The input controller *)

Ltac unfold_io :=
  cbv [bind ret undefined_or set_error_flag get_error_flag emit
       lcd_cmd lcd_data lcd_clear lcd_goto lcd_print lcd_init prompt
       lcd_bus error_flag Ascii.eqb Bool.eqb andb NUL zero].

Lemma written_from_app bus1 : forall bus2 acc,
  written_from (bus1 ++ bus2) acc = written_from bus2 (written_from bus1 acc).
Proof.
  induction bus1 as [| e bus1 IH]; intros bus2 acc; [reflexivity |].
  destruct e as [cmd | c]; cbn [app written_from].
  - destruct (cmd =? 1); apply IH.
  - apply IH.
Qed.

(** C7. From every state of the controller and of the machine the key 'C'
    leaves operand 1 = 0, operand 2 = 0, no pending operator and no fault,
    which is the state [main] starts its loop in, with the prompt on the
    display; 'C' pressed again in that state leaves all of it as it is. *)
Theorem clear_key_resets :
  let c0 := {| CalculatorMain.num1 := 0; CalculatorMain.num2 := 0;
               CalculatorMain.res := 0; CalculatorMain.op := NUL;
               CalculatorMain.have_op := 0; CalculatorMain.err := 0 |} in
  let p0 := {| Part000Main.num1 := 0; Part000Main.num2 := 0;
               Part000Main.res := 0; Part000Main.op := NUL;
               Part000Main.have_op := 0 |} in
  (forall s m, exists m',
      CalculatorMain.loop_body "C"%char s m = Some (c0, m')
      /\ written m' = "Enter:"%string)
  /\ (exists m0, CalculatorMain.startup power_on = Some (c0, m0)
                 /\ written m0 = "Enter:"%string)
  /\ (forall s m, exists m',
      Part000Main.loop_body "C"%char s m = Some (p0, m')
      /\ error_flag m' = 0 /\ written m' = "Enter:"%string)
  /\ (exists m0, Part000Main.startup power_on = Some (p0, m0)
                 /\ error_flag m0 = 0 /\ written m0 = "Enter:"%string).
Proof.
  intros c0 p0. repeat split; intros.
  - unfold CalculatorMain.loop_body. simpl Ascii.eqb. cbv iota. unfold_io.
    eexists. split; [reflexivity |].
    unfold written. cbn [lcd_bus]. rewrite <- !app_assoc, written_from_app.
    vm_compute. reflexivity.
  - eexists. vm_compute. split; reflexivity.
  - unfold Part000Main.loop_body. simpl Ascii.eqb. cbv iota. unfold_io.
    eexists. split; [reflexivity |]. split; [reflexivity |].
    unfold written. cbn [lcd_bus]. rewrite <- !app_assoc, written_from_app.
    vm_compute. reflexivity.
  - eexists. vm_compute. repeat split; reflexivity.
Qed.

(** ** Numeric rendering *)

Lemma send_nil m : send [] m = m.
Proof. destruct m. unfold send. simpl. rewrite app_nil_r. reflexivity. Qed.

Lemma send_cons c out m : send out (send [c] m) = send (c :: out) m.
Proof. unfold send. simpl. rewrite <- app_assoc. reflexivity. Qed.

Lemma send_buf_sends out : forall m, send_buf out m = Some (tt, send out m).
Proof.
  induction out as [| c out IH]; intros m; cbn [send_buf].
  - unfold ret. rewrite send_nil. reflexivity.
  - unfold bind, lcd_data, emit. rewrite IH.
    change {| lcd_bus := lcd_bus m ++ [LcdData c]; error_flag := error_flag m |}
      with (send [c] m).
    rewrite send_cons. reflexivity.
Qed.

Lemma fill_buf_digits room : forall n buf m,
  fill_buf room n buf m = Some (buf ++ digits_lsb room n, m).
Proof.
  induction room as [| room IH]; intros n buf m; cbn [fill_buf digits_lsb].
  - unfold ret. rewrite app_nil_r. reflexivity.
  - destruct (0 <? n).
    + unfold bind, undefined_or, Long.rem, Long.div.
      change (10 =? 0) with false.
      cbv iota. rewrite IH, <- app_assoc. reflexivity.
    + unfold ret. rewrite app_nil_r. reflexivity.
Qed.

Lemma lcd_print_num_rendering n m :
  lcd_print_num n m = Some (tt, send (rendering n) m).
Proof.
  unfold lcd_print_num, rendering. destruct (n =? 0); [reflexivity |].
  unfold bind. destruct (n <? 0).
  - unfold lcd_data, emit, ret.
    rewrite fill_buf_digits, send_buf_sends. cbn [app].
    change {| lcd_bus := lcd_bus m ++ [LcdData "-"%char];
              error_flag := error_flag m |} with (send ["-"%char] m).
    rewrite send_cons. reflexivity.
  - unfold ret. rewrite fill_buf_digits, send_buf_sends. reflexivity.
Qed.

Lemma digit_cell d :
  0 <= d <= 9 ->
  let c := to_char (Long.add (Long.wrap d) (char_val "0"%char)) in
  is_digit c = true /\ digit_value c = d /\ (c = "0"%char -> d = 0).
Proof.
  intros Hd.
  assert (H : d = 0 \/ d = 1 \/ d = 2 \/ d = 3 \/ d = 4 \/ d = 5 \/ d = 6
              \/ d = 7 \/ d = 8 \/ d = 9) by lia.
  repeat (destruct H as [-> | H]); try subst d;
    (split; [vm_compute; reflexivity
            | split; [vm_compute; reflexivity
                     | try reflexivity; intros E; vm_compute in E; discriminate E]]).
Qed.

Lemma decimal_value_snoc ds c :
  decimal_value (ds ++ [c]) = decimal_value ds * 10 + digit_value c.
Proof. unfold decimal_value. rewrite fold_left_app. reflexivity. Qed.

(** The digit loop on a positive [long] that has at most [room] digits. *)
Lemma digits_lsb_correct room : forall n,
  0 < n <= Long.max_long -> n < 10 ^ Z.of_nat room ->
  let ds := rev (digits_lsb room n) in
  plain_digits ds /\ decimal_value ds = n.
Proof.
  induction room as [| room IH]; intros n Hn Hroom.
  - simpl in Hroom. lia.
  - cbn [digits_lsb]. destruct (Z.ltb_spec 0 n) as [_ | Hneg]; [| lia].
    assert (Hq : 0 <= Z.quot n 10 <= Long.max_long).
    { split; [apply Z.quot_pos; lia |].
      pose proof (Z.mul_quot_le n 10 ltac:(lia) ltac:(lia)).
      pose proof (Z.quot_pos n 10 ltac:(lia) ltac:(lia)). lia. }
    assert (Hr : 0 <= Z.rem n 10 <= 9).
    { pose proof (Z.rem_bound_pos n 10 ltac:(lia) ltac:(lia)). lia. }
    pose proof (Z.quot_rem' n 10) as Hdiv.
    rewrite (wrap_id (Z.quot n 10)) by (unfold Long.max_long in *; long_range).
    destruct (digit_cell (Z.rem n 10) Hr) as [Hc [Hv Hz]].
    set (c := to_char (Long.add (Long.wrap (Z.rem n 10)) (char_val "0"%char))) in *.
    cbn [rev]. cbv zeta.
    destruct (Z.eq_dec (Z.quot n 10) 0) as [Hq0 | Hq0].
    + rewrite Hq0. assert (E : digits_lsb room 0 = []) by (destruct room; reflexivity).
      rewrite E. cbn [rev app]. split.
      * split; [discriminate |]. split; [constructor; [exact Hc | constructor] |].
        cbn [hd]. intros Ec. apply Hz in Ec. lia.
      * unfold decimal_value. cbn [fold_left]. lia.
    + assert (Hroom' : Z.quot n 10 < 10 ^ Z.of_nat room).
      { rewrite Nat2Z.inj_succ, Z.pow_succ_r in Hroom by lia. lia. }
      destruct (IH (Z.quot n 10) ltac:(lia) Hroom') as [[Hne [Hall Hhd]] Hval].
      split.
      * split; [|split].
        -- intros E. apply app_eq_nil in E. destruct E as [_ E]. discriminate E.
        -- apply Forall_app. split; [exact Hall | constructor; [exact Hc | constructor]].
        -- destruct (rev (digits_lsb room (Z.quot n 10))) as [| h t];
             [contradiction | exact Hhd].
      * rewrite decimal_value_snoc, Hval, Hv. lia.
Qed.

(** Every [long] but the most negative one is rendered as its decimal
    representation. *)
Lemma lcd_print_num_decimal n m :
  Long.in_range n -> n <> Long.min_long ->
  lcd_print_num n m = Some (tt, send (rendering n) m)
  /\ decimal_repr n (rendering n).
Proof.
  intros Hn Hmin. split; [apply lcd_print_num_rendering |].
  unfold rendering, decimal_repr.
  assert (Hpow : 2 ^ 31 < 10 ^ Z.of_nat 11) by (vm_compute; reflexivity).
  unfold Long.in_range, Long.min_long, Long.max_long in *.
  destruct (Z.eqb_spec n 0) as [-> | Hn0]; [left; split; reflexivity |].
  destruct (Z.ltb_spec n 0) as [Hlt | Hge].
  - right; right. split; [exact Hlt |].
    exists (rev (digits_lsb 11 (Long.neg n))). split; [reflexivity |].
    unfold Long.neg. rewrite wrap_id by long_range.
    apply digits_lsb_correct; unfold Long.max_long; lia.
  - right; left. split; [lia |].
    apply digits_lsb_correct; unfold Long.max_long; lia.
Qed.

(** C9 fails at the most negative [long]: [n = -n] wraps back to [-2^31],
    the digit loop [while(n > 0 && ...)] is not entered, and only the sign
    reaches the display.  The value is reachable from the keypad: ten digits
    that wrap operand 1, an operator and '='. *)
Theorem lcd_print_num_most_negative :
  lcd_print_num (-2147483648) power_on
  = Some (tt, {| lcd_bus := [LcdData "-"%char]; error_flag := 0 |})
  /\ ~ decimal_repr (-2147483648) ["-"%char]
  /\ calculator_shows "2147483648+=" = Some (-2147483648, 0, 0, "Result:-"%string)
  /\ readme_shows "2147483648+=" = Some (-2147483648, 0, false, "Result:-"%string).
Proof.
  split; [vm_compute; reflexivity |].
  split; [| split; vm_compute; reflexivity].
  intros [[H _] | [[H _] | [_ [ds [E [[Hne _] _]]]]]]; try lia.
  injection E as <-. apply Hne. reflexivity.
Qed.

(** ** Transitions of the input controller *)

Lemma digit_key_cases key :
  is_digit key = true -> In key (keys "0123456789").
Proof.
  destruct key as [[] [] [] [] [] [] [] []]; intros H; vm_compute in H;
    try discriminate H; vm_compute; tauto.
Qed.

Lemma operator_key_cases key :
  is_operator key = true -> In key (keys "+-*/").
Proof.
  unfold is_operator. rewrite !orb_true_iff, !Ascii.eqb_eq.
  intros [[[-> | ->] | ->] | ->]; simpl; tauto.
Qed.

Lemma wrap_add_l x y : Long.wrap (Long.wrap x + y) = Long.wrap (x + y).
Proof.
  unfold Long.wrap. f_equal.
  replace ((x + 2 ^ 31) mod 2 ^ 32 - 2 ^ 31 + y + 2 ^ 31)
    with ((x + 2 ^ 31) mod 2 ^ 32 + y) by lia.
  rewrite Zplus_mod_idemp_l. f_equal. lia.
Qed.

Lemma push_digit_wrap n key :
  push_digit n key = Long.wrap (n * 10 + digit_value key).
Proof. unfold push_digit, Long.add, Long.mul, digit_value. apply wrap_add_l. Qed.

(** Decides the tests of [loop_body] on a key that is known. *)
Ltac step_key :=
  cbv beta delta [CalculatorMain.loop_body Part000Main.loop_body
                  ReadmeMain.loop_body];
  repeat match goal with
  | |- context [Ascii.eqb ?a ?b] =>
      let v := eval vm_compute in (Ascii.eqb a b) in
      change (Ascii.eqb a b) with v
  | |- context [is_operator ?a] =>
      let v := eval vm_compute in (is_operator a) in
      change (is_operator a) with v
  | |- context [is_digit ?a] =>
      let v := eval vm_compute in (is_digit a) in
      change (is_digit a) with v
  end;
  cbv iota.

Ltac render_num :=
  match goal with
  | |- context [lcd_print_num ?n ?m] => rewrite (lcd_print_num_rendering n m)
  | _ => idtac
  end.

Ltac decide_flag :=
  cbn [error_flag lcd_bus fault_byte];
  change (1 =? 0) with false; change (0 =? 0) with true; cbn [negb].

(** C3. With an operator pending, '=' applies the evaluator to operand 1,
    operand 2 and the pending operator, then makes operand 1 the result if
    there is no fault and 0 if there is one, makes operand 2 zero and clears
    the pending operator.  From reset, 5 + 3 = leaves 8 and + 2 = after it
    leaves 10; 5 / 0 = shows the error and leaves operand 1 at 0, and
    3 + 2 = after it leaves 5. *)
Theorem equals_key_evaluates :
  (forall s m, CalculatorMain.have_op s <> 0 ->
     exists r f m',
       Calculator.calc_apply (CalculatorMain.num1 s) (CalculatorMain.num2 s)
         (CalculatorMain.op s) (CalculatorMain.err s) m
       = Some ((r, fault_byte f), m)
       /\ CalculatorMain.loop_body "="%char s m
          = Some ({| CalculatorMain.num1 := if f then 0 else r;
                     CalculatorMain.num2 := 0; CalculatorMain.res := r;
                     CalculatorMain.op := NUL; CalculatorMain.have_op := 0;
                     CalculatorMain.err := fault_byte f |}, m'))
  /\ (forall s m, Part000Main.have_op s <> 0 ->
     exists r f m1 m',
       Part000.calc_apply (Part000Main.num1 s) (Part000Main.num2 s)
         (Part000Main.op s) m = Some (r, m1)
       /\ error_flag m1 = fault_byte f
       /\ Part000Main.loop_body "="%char s m
          = Some ({| Part000Main.num1 := if f then 0 else r;
                     Part000Main.num2 := 0; Part000Main.res := r;
                     Part000Main.op := NUL; Part000Main.have_op := 0 |}, m')
       /\ error_flag m' = fault_byte f)
  /\ (calculator_shows "5+3=" = Some (8, 0, 0, "Result:8"%string)
      /\ calculator_shows "5+3=+2=" = Some (10, 0, 0, "Result:10"%string)
      /\ calculator_shows "5/0=" = Some (0, 0, 0, "Result:Error: /0"%string)
      /\ calculator_shows "5/0=3+2=" = Some (5, 0, 0, "Result:5"%string))
  /\ (part000_shows "5+3=" = Some (8, 0, 0, "Result:8"%string)
      /\ part000_shows "5+3=+2=" = Some (10, 0, 0, "Result:10"%string)
      /\ part000_shows "5/0=" = Some (0, 0, 0, "Result:Error: /0"%string)
      /\ part000_shows "5/0=3+2=" = Some (5, 0, 0, "Result:5"%string)).
Proof.
  split; [| split; [| split; repeat split; vm_compute; reflexivity]].
  - intros s m H. step_key.
    destruct (Z.eqb_spec (CalculatorMain.have_op s) 0) as [E | _];
      [contradiction |].
    cbn [negb]. unfold bind at 1. rewrite calculator_calc_apply_spec.
    destruct (spec_apply _ _ _) as [r f]. cbn [fst snd].
    exists r, f. destruct f; decide_flag; unfold_io; render_num;
      eexists; split; reflexivity.
  - intros s m H. step_key.
    destruct (Z.eqb_spec (Part000Main.have_op s) 0) as [E | _];
      [contradiction |].
    cbn [negb]. unfold bind at 1. rewrite part000_calc_apply_spec.
    destruct (spec_apply _ _ _) as [r f]. cbn [fst snd].
    exists r, f. destruct f.
    + unfold_io. decide_flag. unfold_io. decide_flag.
      eexists _, _. repeat split; reflexivity.
    + unfold_io. decide_flag. rewrite lcd_print_num_rendering.
      unfold send. decide_flag.
      eexists _, _. repeat split; reflexivity.
Qed.

Lemma equals_key_evaluates_witness :
  let s := {| CalculatorMain.num1 := 5; CalculatorMain.num2 := 0;
              CalculatorMain.res := 0; CalculatorMain.op := "/"%char;
              CalculatorMain.have_op := 1; CalculatorMain.err := 0 |} in
  CalculatorMain.have_op s <> 0
  /\ exists r f m',
       Calculator.calc_apply (CalculatorMain.num1 s) (CalculatorMain.num2 s)
         (CalculatorMain.op s) (CalculatorMain.err s) power_on
       = Some ((r, fault_byte f), power_on)
       /\ CalculatorMain.loop_body "="%char s power_on
          = Some ({| CalculatorMain.num1 := if f then 0 else r;
                     CalculatorMain.num2 := 0; CalculatorMain.res := r;
                     CalculatorMain.op := NUL; CalculatorMain.have_op := 0;
                     CalculatorMain.err := fault_byte f |}, m').
Proof.
  intros s. split; [simpl; lia |].
  apply (proj1 equals_key_evaluates s power_on). simpl. lia.
Defined.

Ltac close_step H :=
  unfold_io; render_num; intros H;
  injection H as <- _; simpl; auto.

Lemma calculator_pending_ok s :
  calculator_reachable s ->
  pending_ok (CalculatorMain.have_op s) (CalculatorMain.op s).
Proof.
  induction 1 as [| key s m s' m' _ IH Hstep]; [left; split; reflexivity |].
  revert Hstep. unfold CalculatorMain.loop_body.
  destruct (Ascii.eqb key "C"%char);
    [close_step H; left; split; reflexivity |].
  destruct (is_operator key) eqn:Hop.
  { destruct (CalculatorMain.have_op s =? 0);
      [close_step H; right; split; [reflexivity | exact Hop]
      | intros H; injection H as <- _; exact IH]. }
  destruct (Ascii.eqb key "="%char).
  { destruct (CalculatorMain.have_op s =? 0); cbn [negb];
      [intros H; injection H as <- _; exact IH |].
    unfold bind at 1. rewrite calculator_calc_apply_spec.
    destruct (spec_apply _ _ _) as [r [|]]; cbn [fst snd]; decide_flag;
      close_step H; left; split; reflexivity. }
  destruct (is_digit key); [| intros H; injection H as <- _; exact IH].
  destruct (CalculatorMain.have_op s =? 0); close_step H.
Qed.

Lemma part000_pending_ok s :
  part000_reachable s ->
  pending_ok (Part000Main.have_op s) (Part000Main.op s).
Proof.
  induction 1 as [| key s m s' m' _ IH Hstep]; [left; split; reflexivity |].
  revert Hstep. unfold Part000Main.loop_body.
  destruct (Ascii.eqb key "C"%char);
    [close_step H; left; split; reflexivity |].
  destruct (is_operator key) eqn:Hop.
  { destruct (Part000Main.have_op s =? 0);
      [close_step H; right; split; [reflexivity | exact Hop]
      | intros H; injection H as <- _; exact IH]. }
  destruct (Ascii.eqb key "="%char).
  { destruct (Part000Main.have_op s =? 0); cbn [negb];
      [intros H; injection H as <- _; exact IH |].
    unfold bind at 1. rewrite part000_calc_apply_spec.
    destruct (spec_apply _ _ _) as [r [|]]; cbn [fst snd].
    - unfold_io. decide_flag. unfold_io. decide_flag.
      intros H; injection H as <- _. left; split; reflexivity.
    - unfold_io. decide_flag. rewrite lcd_print_num_rendering.
      unfold send. decide_flag.
      intros H; injection H as <- _. left; split; reflexivity. }
  destruct (is_digit key); [| intros H; injection H as <- _; exact IH].
  destruct (Part000Main.have_op s =? 0); close_step H.
Qed.

(** C4. In every reachable state at most one operator is pending.  An
    operator key pressed while one is pending changes neither the state of
    the controller nor the machine (nothing is displayed), so the keys
    5 + + 3 = end in exactly the state 5 + 3 = ends in. *)
Theorem second_operator_ignored :
  (forall s, calculator_reachable s ->
     pending_ok (CalculatorMain.have_op s) (CalculatorMain.op s)
     /\ (forall key m, is_operator key = true -> CalculatorMain.have_op s <> 0 ->
           CalculatorMain.loop_body key s m = Some (s, m)))
  /\ (forall s, part000_reachable s ->
     pending_ok (Part000Main.have_op s) (Part000Main.op s)
     /\ (forall key m, is_operator key = true -> Part000Main.have_op s <> 0 ->
           Part000Main.loop_body key s m = Some (s, m)))
  /\ calculator_session "5++3=" = calculator_session "5+3="
  /\ part000_session "5++3=" = part000_session "5+3=".
Proof.
  split; [| split; [| split; vm_compute; reflexivity]].
  - intros s Hs. split; [apply calculator_pending_ok; exact Hs |].
    intros key m Hk Hp. apply operator_key_cases in Hk. simpl in Hk.
    assert (Hz : (CalculatorMain.have_op s =? 0) = false)
      by (apply Z.eqb_neq; exact Hp).
    repeat (destruct Hk as [<- | Hk]); try contradiction;
      step_key; rewrite Hz; reflexivity.
  - intros s Hs. split; [apply part000_pending_ok; exact Hs |].
    intros key m Hk Hp. apply operator_key_cases in Hk. simpl in Hk.
    assert (Hz : (Part000Main.have_op s =? 0) = false)
      by (apply Z.eqb_neq; exact Hp).
    repeat (destruct Hk as [<- | Hk]); try contradiction;
      step_key; rewrite Hz; reflexivity.
Qed.

Lemma second_operator_ignored_witness :
  let s5 := {| CalculatorMain.num1 := 5; CalculatorMain.num2 := 0;
               CalculatorMain.res := 0; CalculatorMain.op := NUL;
               CalculatorMain.have_op := 0; CalculatorMain.err := 0 |} in
  let s := {| CalculatorMain.num1 := 5; CalculatorMain.num2 := 0;
              CalculatorMain.res := 0; CalculatorMain.op := "+"%char;
              CalculatorMain.have_op := 1; CalculatorMain.err := 0 |} in
  calculator_reachable s
  /\ is_operator "-"%char = true
  /\ CalculatorMain.have_op s <> 0
  /\ CalculatorMain.loop_body "-"%char s power_on = Some (s, power_on).
Proof.
  intros s5 s.
  assert (Hr5 : calculator_reachable s5).
  { eapply (calculator_reach_step "5"%char CalculatorMain.initial power_on s5);
      [constructor | vm_compute; reflexivity]. }
  assert (Hr : calculator_reachable s).
  { eapply (calculator_reach_step "+"%char s5 power_on s);
      [exact Hr5 | vm_compute; reflexivity]. }
  split; [exact Hr |]. split; [reflexivity |]. split; [simpl; lia |].
  apply (proj2 (proj1 second_operator_ignored s Hr)); [reflexivity | simpl; lia].
Defined.

(** C8. A digit key replaces operand 1 by operand 1 * 10 + the digit's value
    when no operator is pending, and operand 2 by operand 2 * 10 + the
    digit's value when one is, in [long] arithmetic; the other operand, the
    pending operator and the rest of the state stay as they were. *)
Theorem digit_key_accumulates :
  (forall key s m, is_digit key = true ->
     0 <= digit_value key <= 9
     /\ exists m',
       CalculatorMain.loop_body key s m
       = Some (if CalculatorMain.have_op s =? 0 then
                 {| CalculatorMain.num1 :=
                      Long.wrap (CalculatorMain.num1 s * 10 + digit_value key);
                    CalculatorMain.num2 := CalculatorMain.num2 s;
                    CalculatorMain.res := CalculatorMain.res s;
                    CalculatorMain.op := CalculatorMain.op s;
                    CalculatorMain.have_op := CalculatorMain.have_op s;
                    CalculatorMain.err := CalculatorMain.err s |}
               else
                 {| CalculatorMain.num1 := CalculatorMain.num1 s;
                    CalculatorMain.num2 :=
                      Long.wrap (CalculatorMain.num2 s * 10 + digit_value key);
                    CalculatorMain.res := CalculatorMain.res s;
                    CalculatorMain.op := CalculatorMain.op s;
                    CalculatorMain.have_op := CalculatorMain.have_op s;
                    CalculatorMain.err := CalculatorMain.err s |}, m'))
  /\ (forall key s m, is_digit key = true ->
     exists m',
       ReadmeMain.loop_body key s m
       = Some (if ReadmeMain.have_op s then
                 {| ReadmeMain.num1 := ReadmeMain.num1 s;
                    ReadmeMain.num2 :=
                      Long.wrap (ReadmeMain.num2 s * 10 + digit_value key);
                    ReadmeMain.result := ReadmeMain.result s;
                    ReadmeMain.op := ReadmeMain.op s;
                    ReadmeMain.have_op := ReadmeMain.have_op s;
                    ReadmeMain.err := ReadmeMain.err s |}
               else
                 {| ReadmeMain.num1 :=
                      Long.wrap (ReadmeMain.num1 s * 10 + digit_value key);
                    ReadmeMain.num2 := ReadmeMain.num2 s;
                    ReadmeMain.result := ReadmeMain.result s;
                    ReadmeMain.op := ReadmeMain.op s;
                    ReadmeMain.have_op := ReadmeMain.have_op s;
                    ReadmeMain.err := ReadmeMain.err s |}, m')).
Proof.
  split; intros key s m Hk; apply digit_key_cases in Hk; simpl in Hk.
  - split;
      [repeat (destruct Hk as [<- | Hk]); try contradiction;
         vm_compute; split; discriminate |].
    rewrite <- !push_digit_wrap.
    repeat (destruct Hk as [<- | Hk]); try contradiction; step_key;
      destruct (CalculatorMain.have_op s =? 0); unfold_io;
      eexists; reflexivity.
  - rewrite <- !push_digit_wrap.
    repeat (destruct Hk as [<- | Hk]); try contradiction; step_key;
      destruct (ReadmeMain.have_op s); cbn [negb]; unfold_io;
      eexists; reflexivity.
Qed.

Lemma digit_key_accumulates_witness :
  let s := {| CalculatorMain.num1 := 214748364; CalculatorMain.num2 := 0;
              CalculatorMain.res := 0; CalculatorMain.op := NUL;
              CalculatorMain.have_op := 0; CalculatorMain.err := 0 |} in
  is_digit "7"%char = true
  /\ 0 <= digit_value "7"%char <= 9
  /\ exists m',
       CalculatorMain.loop_body "7"%char s power_on
       = Some ({| CalculatorMain.num1 := 2147483647; CalculatorMain.num2 := 0;
                  CalculatorMain.res := 0; CalculatorMain.op := NUL;
                  CalculatorMain.have_op := 0; CalculatorMain.err := 0 |}, m').
Proof.
  intros s. split; [reflexivity |].
  exact (proj1 digit_key_accumulates "7"%char s power_on eq_refl).
Defined.

(** ** The keypad scanner of calculator.c and part_000 *)

Lemma wait_release_sound scans : forall rest,
  Keypad.wait_release scans = Some rest ->
  exists held, scans = held ++ NUL :: rest /\ held_down held.
Proof.
  induction scans as [| c scans IH]; intros rest H; simpl in H; [discriminate |].
  destruct (Ascii.eqb_spec c NUL) as [-> | Hc].
  - injection H as <-. exists []. split; [reflexivity | constructor].
  - destruct (IH rest H) as [held [-> Hh]].
    exists (c :: held). split; [reflexivity | constructor; assumption].
Qed.

Lemma wait_release_complete held : forall rest,
  held_down held -> Keypad.wait_release (held ++ NUL :: rest) = Some rest.
Proof.
  induction held as [| c held IH]; intros rest H; simpl.
  - reflexivity.
  - inversion H as [| ? ? Hc Hh]; subst.
    destruct (Ascii.eqb_spec c NUL) as [-> | _]; [contradiction |].
    apply IH; assumption.
Qed.

Lemma keypad_getkey_sound scans :
  (forall k rest, Keypad.keypad_getkey scans = Some (k, rest) ->
                  accepted k scans rest)
  /\ (forall c k rest, Keypad.keypad_getkey (c :: scans) = Some (k, rest) ->
                       accepted k (c :: scans) rest).
Proof.
  induction scans as [| c2 scans [IH1 IH2]].
  - split; [intros k rest H; discriminate H |].
    intros c k rest H. simpl in H. destruct (Ascii.eqb c NUL); discriminate H.
  - split; [exact (IH2 c2) |].
    intros c k rest H. cbn [Keypad.keypad_getkey] in H.
    destruct (Ascii.eqb_spec c NUL) as [-> | Hc]; cbn [negb] in H.
    + destruct (IH2 c2 k rest H) as [noise [held [E [Hk [Hn Hh]]]]].
      exists (NUL :: noise), held. rewrite E.
      repeat split; try assumption. constructor; assumption.
    + destruct (Ascii.eqb_spec c2 c) as [-> | Hc2].
      * destruct (Keypad.wait_release scans) as [rest' |] eqn:Hw;
          [| discriminate H].
        injection H as <- <-.
        destruct (wait_release_sound _ _ Hw) as [held [-> Hh]].
        exists [], held. repeat split; try assumption. constructor.
      * destruct (IH1 k rest H) as [noise [held [E [Hk [Hn Hh]]]]].
        exists (c :: c2 :: noise), held. rewrite E.
        repeat split; try assumption. constructor; assumption.
Qed.

Lemma keypad_getkey_skips noise : forall scans,
  rejected noise ->
  Keypad.keypad_getkey (noise ++ scans) = Keypad.keypad_getkey scans.
Proof.
  intros scans H. induction H as [| rest _ IH | k k2 rest Hk Hk2 _ IH].
  - reflexivity.
  - exact IH.
  - cbn [app Keypad.keypad_getkey].
    destruct (Ascii.eqb_spec k NUL) as [-> | _]; [contradiction |].
    cbn [negb]. destruct (Ascii.eqb_spec k2 k) as [-> | _]; [contradiction |].
    exact IH.
Qed.

Lemma keypad_getkey_complete k scans rest :
  accepted k scans rest -> Keypad.keypad_getkey scans = Some (k, rest).
Proof.
  intros [noise [held [-> [Hk [Hn Hh]]]]].
  rewrite keypad_getkey_skips by assumption.
  cbn [Keypad.keypad_getkey].
  destruct (Ascii.eqb_spec k NUL) as [-> | _]; [contradiction |].
  cbn [negb]. rewrite Ascii.eqb_refl, wait_release_complete by assumption.
  reflexivity.
Qed.


Lemma held_down_repeat k n : k <> NUL -> held_down (repeat k n).
Proof.
  intros Hk. apply Forall_forall. intros c Hc.
  apply repeat_spec in Hc. subst. exact Hk.
Qed.


(** ** The keypad scanner of README.md *)

Lemma readme_wait_release_sound row pins : forall rest,
  ReadmeKeypad.wait_release row pins = Some rest ->
  exists held p_rel,
    pins = held ++ p_rel :: rest
    /\ Forall (fun p => ReadmeKeypad.column_low (p row) = true) held
    /\ ReadmeKeypad.column_low (p_rel row) = false.
Proof.
  induction pins as [| p pins IH]; intros rest H; simpl in H; [discriminate |].
  destruct (ReadmeKeypad.column_low (p row)) eqn:Hp.
  - destruct (IH rest H) as [held [p_rel [-> [Hh Hr]]]].
    exists (p :: held), p_rel. repeat split; [constructor |]; assumption.
  - injection H as <-. exists [], p. repeat split; [constructor | assumption].
Qed.


Lemma readme_scan_sound pins :
  (forall row0 k rest, ReadmeKeypad.scan_from row0 pins = Some (k, rest) ->
                       readme_accepted row0 k pins rest)
  /\ (forall p row0 k rest,
        ReadmeKeypad.scan_from row0 (p :: pins) = Some (k, rest) ->
        readme_accepted row0 k (p :: pins) rest).
Proof.
  induction pins as [| p2 pins [IH1 IH2]].
  - split; [intros row0 k rest H; discriminate H |].
    intros p row0 k rest H. simpl in H.
    destruct (ReadmeKeypad.column_low (p row0)); discriminate H.
  - split; [exact (IH2 p2) |].
    intros p row0 k rest H. cbn [ReadmeKeypad.scan_from] in H.
    destruct (ReadmeKeypad.column_low (p row0)) eqn:Hp.
    + destruct (ReadmeKeypad.column_low (p2 row0)) eqn:Hp2.
      * destruct (ReadmeKeypad.find_col row0 pins) as [[col after_col] |] eqn:Hf;
          [| discriminate H].
        destruct (ReadmeKeypad.wait_release row0 after_col) as [rest' |] eqn:Hw;
          [| discriminate H].
        injection H as <- <-.
        destruct (readme_wait_release_sound _ _ _ Hw) as [held [p_rel [-> [Hh Hr]]]].
        exists row0, [], p, p2, pins, col, held, p_rel.
        repeat split; try assumption. constructor.
      * destruct (IH1 _ _ _ H)
          as [row [pre [q1 [q2 [after2 [col [held [p_rel H']]]]]]]].
        destruct H' as [E [Hpre H']].
        exists row, (p :: p2 :: pre), q1, q2, after2, col, held, p_rel.
        rewrite E. split; [reflexivity |].
        split; [apply passed_bounce; assumption | exact H'].
    + destruct (IH2 _ _ _ _ H)
        as [row [pre [q1 [q2 [after2 [col [held [p_rel H']]]]]]]].
      destruct H' as [E [Hpre H']].
      exists row, (p :: pre), q1, q2, after2, col, held, p_rel.
      rewrite E. split; [reflexivity |].
      split; [apply passed_idle; assumption | exact H'].
Qed.





Lemma next_row_bound row : (ReadmeKeypad.next_row row < 4)%nat.
Proof.
  unfold ReadmeKeypad.next_row. destruct (Nat.ltb_spec (S row) 4); lia.
Qed.








(** The scanner of calculator.c reports a key of the keypad or nothing. *)
Lemma keypad_scan_symbols lines :
  Keypad.keypad_scan lines = NUL
  \/ In (Keypad.keypad_scan lines) (keys "741C8520963=/*-+").
Proof.
  unfold Keypad.keypad_scan.
  repeat match goal with
  | |- context [if ?b then _ else _] => destruct b; [right; simpl; tauto |]
  end.
  left. reflexivity.
Qed.




(** ** The three controllers, key by key *)

Ltac norm_bus :=
  unfold prompt_events, text, keys;
  cbn [app fst snd list_ascii_of_string map lcd_bus error_flag];
  rewrite ?app_nil_r, <- ?app_assoc; cbn [app];
  reflexivity.

Ltac step_done := eexists; (split; [norm_bus | reflexivity]).

Lemma calculator_step_view key s m :
  exists s',
    CalculatorMain.loop_body key s m
    = Some (s', {| lcd_bus := lcd_bus m
                              ++ snd (controller_step key (calculator_view s));
                   error_flag := error_flag m |})
    /\ calculator_view s' = fst (controller_step key (calculator_view s)).
Proof.
  destruct m as [bus ef].
  unfold CalculatorMain.loop_body, controller_step.
  change (v_pending (calculator_view s))
    with (negb (CalculatorMain.have_op s =? 0)).
  destruct (Ascii.eqb key "C"%char); [unfold_io; step_done |].
  destruct (is_operator key).
  { destruct (CalculatorMain.have_op s =? 0); cbn [negb];
      unfold_io; step_done. }
  destruct (Ascii.eqb key "="%char).
  { destruct (CalculatorMain.have_op s =? 0); cbn [negb];
      [unfold_io; step_done |].
    unfold bind at 1. rewrite calculator_calc_apply_spec.
    cbn [calculator_view v_num1 v_num2 v_op].
    destruct (spec_apply _ _ _) as [r [|]]; cbn [fst snd]; decide_flag;
      unfold_io; render_num; unfold send, result_events; step_done. }
  destruct (is_digit key); [| unfold_io; step_done].
  destruct (CalculatorMain.have_op s =? 0) eqn:Hp; cbn [negb];
    unfold_io; eexists; (split; [norm_bus |]);
    unfold calculator_view;
    cbn [CalculatorMain.have_op CalculatorMain.num1 CalculatorMain.num2
         CalculatorMain.op fst]; rewrite Hp; reflexivity.
Qed.

Lemma part000_step_view key s m :
  exists s' flag,
    Part000Main.loop_body key s m
    = Some (s', {| lcd_bus := lcd_bus m
                              ++ snd (controller_step key (part000_view s));
                   error_flag := flag |})
    /\ part000_view s' = fst (controller_step key (part000_view s)).
Proof.
  destruct m as [bus ef].
  unfold Part000Main.loop_body, controller_step.
  change (v_pending (part000_view s))
    with (negb (Part000Main.have_op s =? 0)).
  destruct (Ascii.eqb key "C"%char); [unfold_io; eexists; step_done |].
  destruct (is_operator key).
  { destruct (Part000Main.have_op s =? 0); cbn [negb];
      unfold_io; eexists; step_done. }
  destruct (Ascii.eqb key "="%char).
  { destruct (Part000Main.have_op s =? 0); cbn [negb];
      [unfold_io; eexists; step_done |].
    unfold bind at 1. rewrite part000_calc_apply_spec.
    cbn [part000_view v_num1 v_num2 v_op].
    destruct (spec_apply _ _ _) as [r [|]]; cbn [fst snd].
    - unfold_io. decide_flag. unfold_io. decide_flag.
      unfold result_events. eexists. step_done.
    - unfold_io. decide_flag. render_num. unfold send. decide_flag.
      unfold result_events. eexists. step_done. }
  destruct (is_digit key); [| unfold_io; eexists; step_done].
  destruct (Part000Main.have_op s =? 0) eqn:Hp; cbn [negb];
    unfold_io; eexists; eexists; (split; [norm_bus |]);
    unfold part000_view;
    cbn [Part000Main.have_op Part000Main.num1 Part000Main.num2
         Part000Main.op fst]; rewrite Hp; reflexivity.
Qed.

Lemma readme_step_view key s m :
  exists s',
    ReadmeMain.loop_body key s m
    = Some (s', {| lcd_bus := lcd_bus m
                              ++ snd (controller_step key (readme_view s));
                   error_flag := error_flag m |})
    /\ readme_view s' = fst (controller_step key (readme_view s)).
Proof.
  destruct m as [bus ef].
  unfold ReadmeMain.loop_body, controller_step.
  change (v_pending (readme_view s)) with (ReadmeMain.have_op s).
  destruct (Ascii.eqb key "C"%char); [unfold_io; step_done |].
  destruct (is_operator key).
  { destruct (ReadmeMain.have_op s); cbn [negb]; unfold_io; step_done. }
  destruct (Ascii.eqb key "="%char).
  { destruct (ReadmeMain.have_op s); [| unfold_io; step_done].
    unfold bind at 1. rewrite readme_apply_op_spec.
    cbn [readme_view v_num1 v_num2 v_op].
    destruct (spec_apply _ _ _) as [r [|]]; cbn [fst snd];
      unfold_io; render_num; unfold send, result_events; step_done. }
  destruct (is_digit key); [| unfold_io; step_done].
  destruct (ReadmeMain.have_op s) eqn:Hp; cbn [negb];
    unfold_io; eexists; (split; [norm_bus |]);
    unfold readme_view;
    cbn [ReadmeMain.have_op ReadmeMain.num1 ReadmeMain.num2
         ReadmeMain.op fst]; rewrite Hp; reflexivity.
Qed.

Lemma calculator_run_view ks : forall s m,
  exists s',
    CalculatorMain.run ks s m
    = Some (s', {| lcd_bus := lcd_bus m
                              ++ snd (controller_run ks (calculator_view s));
                   error_flag := error_flag m |})
    /\ calculator_view s' = fst (controller_run ks (calculator_view s)).
Proof.
  induction ks as [| key ks IH]; intros s m.
  - exists s. destruct m as [bus ef]. cbn. rewrite app_nil_r.
    split; reflexivity.
  - cbn [CalculatorMain.run controller_run]. unfold bind.
    destruct (calculator_step_view key s m) as [s1 [-> Hv1]].
    destruct (controller_step key (calculator_view s)) as [v1 out1].
    cbn [fst snd] in *.
    destruct (IH s1 {| lcd_bus := lcd_bus m ++ out1;
                       error_flag := error_flag m |}) as [s2 [-> Hv2]].
    rewrite Hv1 in *.
    destruct (controller_run ks v1) as [v2 out2]. cbn [fst snd lcd_bus] in *.
    exists s2. rewrite <- app_assoc. split; [reflexivity | exact Hv2].
Qed.

Lemma part000_run_view ks : forall s m,
  exists s' flag,
    Part000Main.run ks s m
    = Some (s', {| lcd_bus := lcd_bus m
                              ++ snd (controller_run ks (part000_view s));
                   error_flag := flag |})
    /\ part000_view s' = fst (controller_run ks (part000_view s)).
Proof.
  induction ks as [| key ks IH]; intros s m.
  - exists s, (error_flag m). destruct m as [bus ef]. cbn. rewrite app_nil_r.
    split; reflexivity.
  - cbn [Part000Main.run controller_run]. unfold bind.
    destruct (part000_step_view key s m) as [s1 [flag1 [-> Hv1]]].
    destruct (controller_step key (part000_view s)) as [v1 out1].
    cbn [fst snd] in *.
    destruct (IH s1 {| lcd_bus := lcd_bus m ++ out1;
                       error_flag := flag1 |}) as [s2 [flag2 [-> Hv2]]].
    rewrite Hv1 in *.
    destruct (controller_run ks v1) as [v2 out2]. cbn [fst snd lcd_bus] in *.
    exists s2, flag2. rewrite <- app_assoc. split; [reflexivity | exact Hv2].
Qed.

Lemma readme_run_view ks : forall s m,
  exists s',
    ReadmeMain.run ks s m
    = Some (s', {| lcd_bus := lcd_bus m
                              ++ snd (controller_run ks (readme_view s));
                   error_flag := error_flag m |})
    /\ readme_view s' = fst (controller_run ks (readme_view s)).
Proof.
  induction ks as [| key ks IH]; intros s m.
  - exists s. destruct m as [bus ef]. cbn. rewrite app_nil_r.
    split; reflexivity.
  - cbn [ReadmeMain.run controller_run]. unfold bind.
    destruct (readme_step_view key s m) as [s1 [-> Hv1]].
    destruct (controller_step key (readme_view s)) as [v1 out1].
    cbn [fst snd] in *.
    destruct (IH s1 {| lcd_bus := lcd_bus m ++ out1;
                       error_flag := error_flag m |}) as [s2 [-> Hv2]].
    rewrite Hv1 in *.
    destruct (controller_run ks v1) as [v2 out2]. cbn [fst snd lcd_bus] in *.
    exists s2. rewrite <- app_assoc. split; [reflexivity | exact Hv2].
Qed.

(** X1. Whatever the keys and whatever the state, the loop of each of the
    three [main] functions has an outcome: no key sequence makes the
    firmware divide by zero. *)
Theorem main_never_undefined (ks : list ascii) :
  (forall s m, CalculatorMain.run ks s m <> None)
  /\ (forall s m, Part000Main.run ks s m <> None)
  /\ (forall s m, ReadmeMain.run ks s m <> None).
Proof.
  split; [| split]; intros s m.
  - destruct (calculator_run_view ks s m) as [s' [-> _]]. discriminate.
  - destruct (part000_run_view ks s m) as [s' [flag [-> _]]]. discriminate.
  - destruct (readme_run_view ks s m) as [s' [-> _]]. discriminate.
Qed.

(** X2. The three [main] loops are interchangeable: started with the same
    operands, operator and pending flag, on the same keys, they end with the
    same operands, operator and pending flag and have sent the same bytes to
    the display; calculator.c and README.md leave [error_flag] alone. *)
Theorem main_variants_agree
    (ks : list ascii) (sc : CalculatorMain.locals) (sp : Part000Main.locals)
    (sr : ReadmeMain.locals) (mc mp mr : machine) :
  calculator_view sc = part000_view sp ->
  calculator_view sc = readme_view sr ->
  exists sc' sp' sr' flag out,
    CalculatorMain.run ks sc mc
    = Some (sc', {| lcd_bus := lcd_bus mc ++ out;
                    error_flag := error_flag mc |})
    /\ Part000Main.run ks sp mp
       = Some (sp', {| lcd_bus := lcd_bus mp ++ out; error_flag := flag |})
    /\ ReadmeMain.run ks sr mr
       = Some (sr', {| lcd_bus := lcd_bus mr ++ out;
                       error_flag := error_flag mr |})
    /\ calculator_view sc' = part000_view sp'
    /\ calculator_view sc' = readme_view sr'.
Proof.
  intros Hp Hr.
  destruct (calculator_run_view ks sc mc) as [sc' [Hc Hvc]].
  destruct (part000_run_view ks sp mp) as [sp' [flag [Hpp Hvp]]].
  destruct (readme_run_view ks sr mr) as [sr' [Hrr Hvr]].
  rewrite <- Hp in Hpp, Hvp. rewrite <- Hr in Hrr, Hvr.
  exists sc', sp', sr', flag, (snd (controller_run ks (calculator_view sc))).
  repeat split; try assumption; congruence.
Qed.

Lemma main_variants_agree_witness :
  calculator_view CalculatorMain.initial = part000_view Part000Main.initial
  /\ calculator_view CalculatorMain.initial = readme_view ReadmeMain.initial
  /\ exists sc' sp' sr' flag out,
       CalculatorMain.run (keys "12*3=") CalculatorMain.initial power_on
       = Some (sc', {| lcd_bus := lcd_bus power_on ++ out;
                       error_flag := error_flag power_on |})
       /\ Part000Main.run (keys "12*3=") Part000Main.initial power_on
          = Some (sp', {| lcd_bus := lcd_bus power_on ++ out;
                          error_flag := flag |})
       /\ ReadmeMain.run (keys "12*3=") ReadmeMain.initial power_on
          = Some (sr', {| lcd_bus := lcd_bus power_on ++ out;
                          error_flag := error_flag power_on |})
       /\ calculator_view sc' = part000_view sp'
       /\ calculator_view sc' = readme_view sr'.
Proof.
  split; [reflexivity |]. split; [reflexivity |].
  exact (main_variants_agree (keys "12*3=") CalculatorMain.initial
           Part000Main.initial ReadmeMain.initial power_on power_on power_on
           eq_refl eq_refl).
Defined.

(** ** Entering numbers and reading results *)

Lemma wrap_shift z j : Long.wrap (z + j * 2 ^ 32) = Long.wrap z.
Proof.
  unfold Long.wrap. f_equal.
  replace (z + j * 2 ^ 32 + 2 ^ 31) with (z + 2 ^ 31 + j * 2 ^ 32) by lia.
  apply Z.mod_add. lia.
Qed.

Lemma push_digit_wrap_l n key :
  push_digit (Long.wrap n) key = Long.wrap (n * 10 + digit_value key).
Proof.
  rewrite push_digit_wrap. destruct (wrap_congruent n) as [k ->].
  replace ((n + k * 2 ^ 32) * 10 + digit_value key)
    with (n * 10 + digit_value key + (10 * k) * 2 ^ 32) by lia.
  apply wrap_shift.
Qed.

Lemma decimal_value_from ds : forall a,
  fold_left (fun acc c => acc * 10 + digit_value c) ds a
  = a * 10 ^ Z.of_nat (List.length ds) + decimal_value ds.
Proof.
  unfold decimal_value.
  induction ds as [| c ds IH]; intros a; cbn [fold_left List.length].
  - simpl. lia.
  - rewrite IH, (IH (0 * 10 + digit_value c)).
    rewrite Nat2Z.inj_succ, Z.pow_succ_r by lia. lia.
Qed.

(** Digits typed one after the other build the number they spell, reduced
    to 32 bits. *)
Lemma accumulate_digits ds : forall n,
  fold_left push_digit ds (Long.wrap n)
  = Long.wrap (n * 10 ^ Z.of_nat (List.length ds) + decimal_value ds).
Proof.
  induction ds as [| c ds IH]; intros n; cbn [fold_left List.length].
  - unfold decimal_value. simpl. f_equal. lia.
  - rewrite push_digit_wrap_l, IH. f_equal.
    unfold decimal_value at 2. cbn [fold_left].
    rewrite decimal_value_from, Nat2Z.inj_succ, Z.pow_succ_r by lia. lia.
Qed.

Lemma digit_key_class key :
  is_digit key = true ->
  Ascii.eqb key "C"%char = false /\ is_operator key = false
  /\ Ascii.eqb key "="%char = false.
Proof.
  intros H. apply digit_key_cases in H. simpl in H.
  repeat (destruct H as [<- | H]); try contradiction; repeat split.
Qed.

Lemma operator_key_class key :
  is_operator key = true -> Ascii.eqb key "C"%char = false.
Proof.
  intros H. apply operator_key_cases in H. simpl in H.
  repeat (destruct H as [<- | H]); try contradiction; reflexivity.
Qed.

Lemma controller_run_digits ds : forall v,
  all_digits ds ->
  controller_run ds v
  = (if v_pending v then
       {| v_num1 := v_num1 v; v_num2 := fold_left push_digit ds (v_num2 v);
          v_op := v_op v; v_pending := v_pending v |}
     else
       {| v_num1 := fold_left push_digit ds (v_num1 v); v_num2 := v_num2 v;
          v_op := v_op v; v_pending := v_pending v |},
     map LcdData ds).
Proof.
  induction ds as [| c ds IH]; intros v H.
  - destruct v as [n1 n2 o []]; reflexivity.
  - inversion H as [| ? ? Hc Hds]; subst.
    destruct (digit_key_class c Hc) as [HC [Ho He]].
    cbn [controller_run]. unfold controller_step.
    rewrite HC, Ho, He, Hc.
    destruct (v_pending v) eqn:Hp; rewrite (IH _ Hds);
      cbn [v_pending v_num1 v_num2 v_op fold_left app map]; reflexivity.
Qed.

Lemma controller_run_cons k ks v :
  controller_run (k :: ks) v
  = (fst (controller_run ks (fst (controller_step k v))),
     snd (controller_step k v)
     ++ snd (controller_run ks (fst (controller_step k v)))).
Proof.
  cbn [controller_run]. destruct (controller_step k v) as [v1 out1].
  cbn [fst snd]. destruct (controller_run ks v1). reflexivity.
Qed.

Lemma controller_run_app ks1 : forall ks2 v,
  controller_run (ks1 ++ ks2) v
  = (fst (controller_run ks2 (fst (controller_run ks1 v))),
     snd (controller_run ks1 v)
     ++ snd (controller_run ks2 (fst (controller_run ks1 v)))).
Proof.
  induction ks1 as [| k ks1 IH]; intros ks2 v.
  - cbn. destruct (controller_run ks2 v). reflexivity.
  - cbn [app controller_run].
    destruct (controller_step k v) as [v1 out1]. rewrite IH.
    destruct (controller_run ks1 v1) as [v2 out2]. cbn [fst snd].
    rewrite app_assoc. reflexivity.
Qed.

Lemma append_assoc_one acc c s :
  ((acc ++ String c EmptyString) ++ s)%string = (acc ++ String c s)%string.
Proof.
  induction acc as [| a acc IH]; [reflexivity |].
  cbn [String.append]. rewrite IH. reflexivity.
Qed.

Lemma written_from_data l : forall acc,
  written_from (map LcdData l) acc
  = (acc ++ string_of_list_ascii l)%string.
Proof.
  induction l as [| c l IH]; intros acc; cbn [map written_from].
  - cbn. induction acc as [| a acc IHa]; [reflexivity |].
    cbn [String.append]. rewrite <- IHa. reflexivity.
  - rewrite IH. cbn [string_of_list_ascii]. apply append_assoc_one.
Qed.

(** The display after a result has been shown. *)
Lemma written_result bus r f :
  written_from (bus ++ result_events r f) EmptyString
  = ("Result:"
     ++ (if f then "Error: /0" else string_of_list_ascii (rendering r)))%string.
Proof.
  rewrite written_from_app. unfold result_events.
  cbn [app written_from]. change (1 =? 1) with true. cbv iota.
  change (128 =? 1) with false. cbv iota.
  unfold text. rewrite written_from_app, written_from_data.
  cbn [written_from app]. change (192 =? 1) with false. cbv iota.
  destruct f.
  - unfold text. rewrite written_from_data. reflexivity.
  - rewrite written_from_data. reflexivity.
Qed.

Lemma rendering_digits n :
  0 <= n <= Long.max_long ->
  all_digits (rendering n) /\ decimal_value (rendering n) = n.
Proof.
  intros Hn.
  assert (Hr : Long.in_range n) by (unfold Long.max_long in Hn; long_range).
  assert (Hm : n <> Long.min_long) by (unfold Long.min_long; lia).
  destruct (lcd_print_num_decimal n power_on Hr Hm) as [_ Hd].
  destruct Hd as [[-> ->] | [[_ [[_ [Hall _]] Hv]] | [Hneg _]]].
  - split; [repeat constructor | reflexivity].
  - split; assumption.
  - lia.
Qed.

(** X3. Digit keys build the number they spell.  With no operator pending a
    run of digit keys turns operand 1 into operand 1 * 10^k + the number
    spelled by the k digits, reduced to 32 bits, echoes the digits and
    changes nothing else; with an operator pending the same happens to
    operand 2. *)
Theorem digits_spell_number
    (ds : list ascii) (s : CalculatorMain.locals) (m : machine) :
  all_digits ds ->
  Long.in_range (CalculatorMain.num1 s) ->
  Long.in_range (CalculatorMain.num2 s) ->
  let spelled n :=
    Long.wrap (n * 10 ^ Z.of_nat (List.length ds) + decimal_value ds) in
  exists s',
    CalculatorMain.run ds s m
    = Some (s', {| lcd_bus := lcd_bus m ++ map LcdData ds;
                   error_flag := error_flag m |})
    /\ CalculatorMain.num1 s'
       = (if CalculatorMain.have_op s =? 0
          then spelled (CalculatorMain.num1 s) else CalculatorMain.num1 s)
    /\ CalculatorMain.num2 s'
       = (if CalculatorMain.have_op s =? 0
          then CalculatorMain.num2 s else spelled (CalculatorMain.num2 s))
    /\ CalculatorMain.op s' = CalculatorMain.op s
    /\ (CalculatorMain.have_op s' =? 0) = (CalculatorMain.have_op s =? 0).
Proof.
  intros Hds H1 H2 spelled.
  destruct (calculator_run_view ds s m) as [s' [Hrun Hv]].
  rewrite controller_run_digits in Hrun, Hv by exact Hds.
  cbn [fst snd] in Hrun, Hv. exists s'. split; [exact Hrun |].
  unfold calculator_view in Hv. cbn [v_pending v_num1 v_num2 v_op] in Hv.
  assert (A1 : fold_left push_digit ds (CalculatorMain.num1 s)
               = spelled (CalculatorMain.num1 s)).
  { unfold spelled. rewrite <- accumulate_digits, wrap_id by exact H1.
    reflexivity. }
  assert (A2 : fold_left push_digit ds (CalculatorMain.num2 s)
               = spelled (CalculatorMain.num2 s)).
  { unfold spelled. rewrite <- accumulate_digits, wrap_id by exact H2.
    reflexivity. }
  rewrite A1, A2 in Hv.
  destruct (CalculatorMain.have_op s =? 0); cbn [negb] in Hv;
    injection Hv as E1 E2 E3 E4; repeat split; try assumption;
    apply (f_equal negb) in E4; rewrite negb_involutive in E4; exact E4.
Qed.

Lemma digits_spell_number_witness :
  all_digits (keys "1234")
  /\ Long.in_range (CalculatorMain.num1 CalculatorMain.initial)
  /\ Long.in_range (CalculatorMain.num2 CalculatorMain.initial)
  /\ exists s',
       CalculatorMain.run (keys "1234") CalculatorMain.initial power_on
       = Some (s', {| lcd_bus := map LcdData (keys "1234"); error_flag := 0 |})
       /\ CalculatorMain.num1 s' = 1234
       /\ CalculatorMain.num2 s' = 0
       /\ CalculatorMain.op s' = NUL
       /\ (CalculatorMain.have_op s' =? 0) = true.
Proof.
  assert (Hd : all_digits (keys "1234")) by (repeat constructor).
  assert (H0 : Long.in_range 0) by long_range.
  split; [exact Hd |]. split; [exact H0 |]. split; [exact H0 |].
  exact (digits_spell_number (keys "1234") CalculatorMain.initial power_on
           Hd H0 H0).
Defined.

(** X4. What the display shows can be typed back: the digits
    [lcd_print_num] sends for a non-negative [long], typed on the keypad
    after a clear, give operand 1 that very number. *)
Theorem typed_rendering_round_trip (n : Z) (m : machine) :
  0 <= n <= Long.max_long ->
  exists s' m',
    CalculatorMain.run (rendering n) CalculatorMain.initial m = Some (s', m')
    /\ CalculatorMain.num1 s' = n.
Proof.
  intros Hn. destruct (rendering_digits n Hn) as [Hd Hv].
  destruct (calculator_run_view (rendering n) CalculatorMain.initial m)
    as [s' [Hrun Hview]].
  exists s'. eexists. split; [exact Hrun |].
  rewrite controller_run_digits in Hview by exact Hd.
  cbn [fst calculator_view CalculatorMain.initial CalculatorMain.have_op
       CalculatorMain.num1 CalculatorMain.num2 CalculatorMain.op
       v_pending v_num1] in Hview.
  change (negb (0 =? 0)) with false in Hview. cbv iota in Hview.
  apply (f_equal v_num1) in Hview. unfold calculator_view in Hview.
  cbn [v_num1] in Hview. rewrite Hview.
  change 0 with (Long.wrap 0) at 1.
  rewrite accumulate_digits, Hv, Z.mul_0_l, Z.add_0_l.
  apply wrap_id. unfold Long.max_long in Hn. long_range.
Qed.

Lemma typed_rendering_round_trip_witness :
  0 <= 2147483647 <= Long.max_long
  /\ exists s' m',
       CalculatorMain.run (rendering 2147483647) CalculatorMain.initial power_on
       = Some (s', m')
       /\ CalculatorMain.num1 s' = 2147483647.
Proof.
  assert (H : 0 <= 2147483647 <= Long.max_long)
    by (unfold Long.max_long; lia).
  split; [exact H |].
  exact (typed_rendering_round_trip 2147483647 power_on H).
Defined.

(** X5. A whole calculation.  After a clear, a number, an operator, a
    number and '=' leave in operand 1 what the evaluator returns on the two
    numbers typed (0 if it reports a fault), clear operand 2 and the pending
    operator, and show "Result:" followed by the rendering of the result, or
    by "Error: /0" on a fault. *)
Theorem calculation_end_to_end
    (ds1 ds2 : list ascii) (o : ascii) (m : machine) :
  all_digits ds1 -> all_digits ds2 -> is_operator o = true ->
  exists r f s' m',
    evaluates (Long.wrap (decimal_value ds1)) (Long.wrap (decimal_value ds2))
      o r f
    /\ CalculatorMain.run (ds1 ++ o :: ds2 ++ ["="%char])
         CalculatorMain.initial m = Some (s', m')
    /\ CalculatorMain.num1 s' = (if f then 0 else r)
    /\ CalculatorMain.num2 s' = 0
    /\ CalculatorMain.op s' = NUL
    /\ CalculatorMain.have_op s' = 0
    /\ written m'
       = ("Result:" ++ (if f then "Error: /0"
                        else string_of_list_ascii (rendering r)))%string.
Proof.
  intros H1 H2 Ho.
  set (a := Long.wrap (decimal_value ds1)).
  set (b := Long.wrap (decimal_value ds2)).
  exists (fst (spec_apply a b o)), (snd (spec_apply a b o)).
  destruct (calculator_run_view (ds1 ++ o :: ds2 ++ ["="%char])
              CalculatorMain.initial m) as [s' [Hrun Hv]].
  exists s'. eexists. split; [apply evaluates_spec |].
  split; [exact Hrun |].
  assert (E : controller_run (ds1 ++ o :: ds2 ++ ["="%char]) initial_view
              = ({| v_num1 := if snd (spec_apply a b o) then 0
                              else fst (spec_apply a b o);
                    v_num2 := 0; v_op := NUL; v_pending := false |},
                 map LcdData ds1
                 ++ [LcdData " "%char; LcdData o; LcdData " "%char]
                 ++ map LcdData ds2
                 ++ result_events (fst (spec_apply a b o))
                                  (snd (spec_apply a b o)))).
  { assert (Ea : fold_left push_digit ds1 0 = a).
    { change 0 with (Long.wrap 0) at 1. unfold a.
      rewrite accumulate_digits, Z.mul_0_l, Z.add_0_l. reflexivity. }
    assert (Eb : fold_left push_digit ds2 0 = b).
    { change 0 with (Long.wrap 0) at 1. unfold b.
      rewrite accumulate_digits, Z.mul_0_l, Z.add_0_l. reflexivity. }
    rewrite controller_run_app, (controller_run_digits ds1) by exact H1.
    cbn [fst snd initial_view v_pending v_num1 v_num2 v_op]. rewrite Ea.
    rewrite controller_run_cons.
    assert (Es : controller_step o
                   {| v_num1 := a; v_num2 := 0; v_op := NUL;
                      v_pending := false |}
                 = ({| v_num1 := a; v_num2 := 0; v_op := o;
                       v_pending := true |},
                    [LcdData " "%char; LcdData o; LcdData " "%char])).
    { unfold controller_step. rewrite (operator_key_class o Ho), Ho.
      reflexivity. }
    rewrite Es. cbn [fst snd].
    rewrite controller_run_app, (controller_run_digits ds2) by exact H2.
    cbn [fst snd v_pending v_num1 v_num2 v_op]. rewrite Eb.
    rewrite controller_run_cons. cbn [controller_run fst snd].
    rewrite app_nil_r. reflexivity. }
  change (calculator_view CalculatorMain.initial) with initial_view in *.
  rewrite E in Hv. cbn [fst] in Hv. unfold calculator_view in Hv.
  injection Hv as E1 E2 E3 E4.
  repeat split; try assumption.
  - apply negb_false_iff in E4. apply Z.eqb_eq in E4. exact E4.
  - unfold written. cbn [lcd_bus]. rewrite E. cbn [snd].
    rewrite !app_assoc. apply written_result.
Qed.

Lemma calculation_end_to_end_witness :
  all_digits (keys "12") /\ all_digits (keys "0") /\ is_operator "/"%char = true
  /\ exists r f s' m',
       evaluates (Long.wrap (decimal_value (keys "12")))
         (Long.wrap (decimal_value (keys "0"))) "/"%char r f
       /\ CalculatorMain.run (keys "12" ++ "/"%char :: keys "0" ++ ["="%char])
            CalculatorMain.initial power_on = Some (s', m')
       /\ CalculatorMain.num1 s' = (if f then 0 else r)
       /\ CalculatorMain.num2 s' = 0
       /\ CalculatorMain.op s' = NUL
       /\ CalculatorMain.have_op s' = 0
       /\ written m'
          = ("Result:" ++ (if f then "Error: /0"
                           else string_of_list_ascii (rendering r)))%string.
Proof.
  assert (H1 : all_digits (keys "12")) by (repeat constructor).
  assert (H2 : all_digits (keys "0")) by (repeat constructor).
  split; [exact H1 |]. split; [exact H2 |]. split; [reflexivity |].
  exact (calculation_end_to_end (keys "12") (keys "0") "/"%char power_on
           H1 H2 eq_refl).
Defined.

(** ** Invariants and keys without effect *)

Lemma spec_apply_range a b op :
  Long.in_range b -> Long.in_range (fst (spec_apply a b op)).
Proof.
  intros Hb. unfold spec_apply.
  repeat match goal with
  | |- context [Ascii.eqb op ?c] => destruct (Ascii.eqb op c)
  end; cbn [fst]; try apply wrap_in_range; try exact Hb.
  destruct (b =? 0); cbn [fst]; [long_range | apply wrap_in_range].
Qed.

Lemma push_digit_range n key : Long.in_range (push_digit n key).
Proof. unfold push_digit, Long.add. apply wrap_in_range. Qed.

Ltac close_range H :=
  unfold_io; render_num; intros H; injection H as <- _;
  cbn [CalculatorMain.num1 CalculatorMain.num2 CalculatorMain.res];
  auto using push_digit_range.

(** X6. Every operand [main] ever holds is a [long]: in each state the loop
    of calculator.c can reach, operand 1, operand 2 and [res] lie between
    -2^31 and 2^31 - 1, whatever was typed. *)
Theorem operands_stay_in_range (s : CalculatorMain.locals) :
  calculator_reachable s ->
  Long.in_range (CalculatorMain.num1 s)
  /\ Long.in_range (CalculatorMain.num2 s)
  /\ Long.in_range (CalculatorMain.res s).
Proof.
  assert (H0 : Long.in_range 0) by long_range.
  induction 1 as [| key s m s' m' _ [I1 [I2 I3]] Hstep];
    [split; [exact H0 | split; exact H0] |].
  revert Hstep. unfold CalculatorMain.loop_body.
  destruct (Ascii.eqb key "C"%char); [close_range H |].
  destruct (is_operator key).
  { destruct (CalculatorMain.have_op s =? 0); close_range H. }
  destruct (Ascii.eqb key "="%char).
  { destruct (CalculatorMain.have_op s =? 0); cbn [negb]; [close_range H |].
    unfold bind at 1. rewrite calculator_calc_apply_spec.
    pose proof (spec_apply_range (CalculatorMain.num1 s)
                  (CalculatorMain.num2 s) (CalculatorMain.op s) I2) as Hr.
    destruct (spec_apply _ _ _) as [r [|]]; cbn [fst snd] in *; decide_flag;
      close_range H. }
  destruct (is_digit key); [| close_range H].
  destruct (CalculatorMain.have_op s =? 0); close_range H.
Qed.

Lemma operands_stay_in_range_witness :
  exists s,
    calculator_reachable s
    /\ CalculatorMain.num1 s = -2147483648
    /\ Long.in_range (CalculatorMain.num1 s)
    /\ Long.in_range (CalculatorMain.num2 s)
    /\ Long.in_range (CalculatorMain.res s).
Proof.
  set (s := {| CalculatorMain.num1 := -2147483648; CalculatorMain.num2 := 0;
               CalculatorMain.res := -2147483648; CalculatorMain.op := NUL;
               CalculatorMain.have_op := 0; CalculatorMain.err := 0 |}).
  assert (R1 : calculator_reachable
                 {| CalculatorMain.num1 := 2147483647;
                    CalculatorMain.num2 := 0; CalculatorMain.res := 0;
                    CalculatorMain.op := NUL; CalculatorMain.have_op := 0;
                    CalculatorMain.err := 0 |}).
  { assert (G : forall ks s1 m1 s2 m2, calculator_reachable s1 ->
              CalculatorMain.run ks s1 m1 = Some (s2, m2) ->
              calculator_reachable s2).
    { induction ks as [| k ks IH]; intros s1 m1 s2 m2 Hr Hrun.
      - injection Hrun as <- _. exact Hr.
      - cbn [CalculatorMain.run] in Hrun. unfold bind in Hrun.
        destruct (CalculatorMain.loop_body k s1 m1) as [[s3 m3] |] eqn:Hs;
          [| discriminate Hrun].
        apply (IH s3 m3 s2 m2); [| exact Hrun].
        apply (calculator_reach_step k s1 m1 s3 m3); assumption. }
    eapply (G (keys "2147483647") CalculatorMain.initial power_on);
      [constructor | vm_compute; reflexivity]. }
  assert (R2 : calculator_reachable
                 {| CalculatorMain.num1 := 2147483647;
                    CalculatorMain.num2 := 0; CalculatorMain.res := 0;
                    CalculatorMain.op := "+"%char; CalculatorMain.have_op := 1;
                    CalculatorMain.err := 0 |}).
  { eapply (calculator_reach_step "+"%char _ power_on); [exact R1 |].
    vm_compute. reflexivity. }
  assert (R3 : calculator_reachable
                 {| CalculatorMain.num1 := 2147483647;
                    CalculatorMain.num2 := 1; CalculatorMain.res := 0;
                    CalculatorMain.op := "+"%char; CalculatorMain.have_op := 1;
                    CalculatorMain.err := 0 |}).
  { eapply (calculator_reach_step "1"%char _ power_on); [exact R2 |].
    vm_compute. reflexivity. }
  assert (R4 : calculator_reachable s).
  { eapply (calculator_reach_step "="%char _ power_on); [exact R3 |].
    vm_compute. reflexivity. }
  exists s. split; [exact R4 |]. split; [reflexivity |].
  exact (operands_stay_in_range s R4).
Defined.

(** X7. Keys without effect.  '=' with no operator pending, and every key
    value that is neither 'C', an operator, '=' nor a digit, leave the
    locals and the machine exactly as they were: nothing is displayed. *)
Theorem idle_keys_change_nothing (key : ascii) :
  (forall s m,
      (key = "="%char /\ CalculatorMain.have_op s = 0)
      \/ (Ascii.eqb key "C"%char = false /\ is_operator key = false
          /\ Ascii.eqb key "="%char = false /\ is_digit key = false) ->
      CalculatorMain.loop_body key s m = Some (s, m))
  /\ (forall s m,
      (key = "="%char /\ Part000Main.have_op s = 0)
      \/ (Ascii.eqb key "C"%char = false /\ is_operator key = false
          /\ Ascii.eqb key "="%char = false /\ is_digit key = false) ->
      Part000Main.loop_body key s m = Some (s, m))
  /\ (forall s m,
      (key = "="%char /\ ReadmeMain.have_op s = false)
      \/ (Ascii.eqb key "C"%char = false /\ is_operator key = false
          /\ Ascii.eqb key "="%char = false /\ is_digit key = false) ->
      ReadmeMain.loop_body key s m = Some (s, m)).
Proof.
  split; [| split]; intros s m [[-> Hp] | [HC [Ho [He Hd]]]].
  - step_key. rewrite Hp. reflexivity.
  - unfold CalculatorMain.loop_body. rewrite HC, Ho, He, Hd. reflexivity.
  - step_key. rewrite Hp. reflexivity.
  - unfold Part000Main.loop_body. rewrite HC, Ho, He, Hd. reflexivity.
  - step_key. rewrite Hp. reflexivity.
  - unfold ReadmeMain.loop_body. rewrite HC, Ho, He, Hd. reflexivity.
Qed.

Lemma idle_keys_change_nothing_witness :
  ("="%char = "="%char /\ CalculatorMain.have_op CalculatorMain.initial = 0)
  /\ CalculatorMain.loop_body "="%char CalculatorMain.initial power_on
     = Some (CalculatorMain.initial, power_on)
  /\ (Ascii.eqb "A" "C" = false /\ is_operator "A" = false
      /\ Ascii.eqb "A" "=" = false /\ is_digit "A" = false)
  /\ ReadmeMain.loop_body "A"%char ReadmeMain.initial power_on
     = Some (ReadmeMain.initial, power_on).
Proof.
  assert (H1 : "="%char = "="%char
               /\ CalculatorMain.have_op CalculatorMain.initial = 0)
    by (split; reflexivity).
  assert (H2 : Ascii.eqb "A" "C" = false /\ is_operator "A" = false
               /\ Ascii.eqb "A" "=" = false /\ is_digit "A" = false)
    by (repeat split).
  split; [exact H1 |].
  split; [exact (proj1 (idle_keys_change_nothing "="%char)
                   CalculatorMain.initial power_on (or_introl H1)) |].
  split; [exact H2 |].
  exact (proj2 (proj2 (idle_keys_change_nothing "A"%char))
           ReadmeMain.initial power_on (or_intror H2)).
Defined.

(** ** More on the evaluator *)

Lemma evaluates_functional a b op r f r' f' :
  evaluates a b op r f -> evaluates a b op r' f' -> r = r' /\ f = f'.
Proof.
  intros [_ [_ H]] [_ [_ H']].
  specialize (H false power_on). specialize (H' false power_on).
  rewrite H in H'. injection H' as <- <-. split; reflexivity.
Qed.

(** X8. The fault is raised for division by zero and for nothing else, and
    an operator byte that is none of '+', '-', '*', '/' makes the evaluator
    hand back its second operand (the [default] of the [switch]). *)
Theorem evaluator_fault_and_default (a b : Z) (op : ascii) (r : Z) (f : bool) :
  evaluates a b op r f ->
  (f = true <-> op = "/"%char /\ b = 0)
  /\ (is_operator op = false -> r = b).
Proof.
  intros H.
  destruct (evaluates_functional _ _ _ _ _ _ _ H (evaluates_spec a b op))
    as [-> ->].
  unfold spec_apply, is_operator.
  destruct (Ascii.eqb_spec op "+"%char) as [-> | _];
    [split; [split; [discriminate | intros [E _]; discriminate E]
            | discriminate] |].
  destruct (Ascii.eqb_spec op "-"%char) as [-> | _];
    [split; [split; [discriminate | intros [E _]; discriminate E]
            | discriminate] |].
  destruct (Ascii.eqb_spec op "*"%char) as [-> | _];
    [split; [split; [discriminate | intros [E _]; discriminate E]
            | discriminate] |].
  destruct (Ascii.eqb_spec op "/"%char) as [-> | Hd].
  - destruct (Z.eqb_spec b 0) as [-> | Hb]; cbn [fst snd].
    + split; [split; [intros _; split; reflexivity | reflexivity]
             | discriminate].
    + split; [split; [discriminate | intros [_ E]; contradiction]
             | discriminate].
  - cbn [fst snd]. split; [| reflexivity].
    split; [discriminate | intros [E _]; contradiction].
Qed.

Lemma evaluator_fault_and_default_witness :
  evaluates 7 0 "/"%char 0 true
  /\ (true = true <-> "/"%char = "/"%char /\ 0 = 0)
  /\ (is_operator "/"%char = false -> 0 = 0).
Proof.
  assert (H : evaluates 7 0 "/"%char 0 true)
    by exact (evaluates_spec 7 0 "/"%char).
  split; [exact H |].
  exact (evaluator_fault_and_default 7 0 "/"%char 0 true H).
Defined.

(** X9. Wrap-around loses nothing: subtracting from a sum the operand that
    was added gives back the first operand, also when the sum overflowed,
    and so does adding back what was subtracted. *)
Theorem add_then_subtract_restores (a b : Z) :
  Long.in_range a ->
  exists sum diff,
    evaluates a b "+"%char sum false /\ evaluates sum b "-"%char a false
    /\ evaluates a b "-"%char diff false /\ evaluates diff b "+"%char a false.
Proof.
  intros Ha. exists (Long.wrap (a + b)), (Long.wrap (a - b)).
  assert (E1 : Long.wrap (Long.wrap (a + b) - b) = a).
  { replace (Long.wrap (a + b) - b) with (Long.wrap (a + b) + - b) by lia.
    rewrite wrap_add_l. replace (a + b + - b) with a by lia.
    apply wrap_id. exact Ha. }
  assert (E2 : Long.wrap (Long.wrap (a - b) + b) = a).
  { rewrite wrap_add_l. replace (a - b + b) with a by lia.
    apply wrap_id. exact Ha. }
  repeat split; try (apply evaluates_at; reflexivity);
    apply evaluates_at; unfold spec_apply; cbn [Ascii.eqb Bool.eqb];
    cbv iota; rewrite ?E1, ?E2; reflexivity.
Qed.

Lemma add_then_subtract_restores_witness :
  Long.in_range 2147483647
  /\ exists sum diff,
       evaluates 2147483647 5 "+"%char sum false
       /\ evaluates sum 5 "-"%char 2147483647 false
       /\ evaluates 2147483647 5 "-"%char diff false
       /\ evaluates diff 5 "+"%char 2147483647 false.
Proof.
  assert (H : Long.in_range 2147483647) by long_range.
  split; [exact H |]. exact (add_then_subtract_restores 2147483647 5 H).
Defined.

(** ** More on the keypads *)

Ltac small_index i :=
  destruct i as [| [| [| [| i]]]]; [| | | | lia].

(** X10. One scan of calculator.c reports no key exactly when none of the
    sixteen crossings reads low, and otherwise the key of the first crossing
    that reads low in scan order (column [C1] to [C4], within a column row
    [R1] to [R4]): of two keys down, the earlier one wins. *)
Theorem keypad_scan_first_low (lines : Keypad.matrix) :
  (Keypad.keypad_scan lines = NUL
   <-> forall col row, (col < 4)%nat -> (row < 4)%nat -> lines col row = false)
  /\ (forall col row,
        (col < 4)%nat -> (row < 4)%nat -> lines col row = true ->
        (forall c r, (c < 4)%nat -> (r < 4)%nat ->
                     (scan_rank c r < scan_rank col row)%nat ->
                     lines c r = false) ->
        Keypad.keypad_scan lines = scan_key col row
        /\ scan_key col row <> NUL).
Proof.
  split.
  - split.
    + intros H col row Hc Hr. revert H. unfold Keypad.keypad_scan.
      small_index col; small_index row;
        repeat match goal with
        | |- context [if ?b then _ else _] =>
            destruct b; [solve [intros E; discriminate E | reflexivity] |]
        end; reflexivity.
    + intros H. unfold Keypad.keypad_scan.
      rewrite !H by lia. reflexivity.
  - intros col row Hc Hr Hlow Hprev. unfold Keypad.keypad_scan.
    small_index col; small_index row;
      (split; [| discriminate]);
      repeat match goal with
      | |- context [if lines ?c ?r then _ else _] =>
          first [ rewrite Hlow; reflexivity
                | rewrite (Hprev c r) by (unfold scan_rank; lia) ]
      end.
Qed.

Lemma keypad_scan_first_low_witness :
  let lines : Keypad.matrix :=
    fun col row => (Nat.eqb col 1 && Nat.eqb row 2)
                   || (Nat.eqb col 3 && Nat.eqb row 0) in
  (1 < 4)%nat /\ (2 < 4)%nat /\ lines 1%nat 2%nat = true
  /\ Keypad.keypad_scan lines = "2"%char.
Proof.
  intros lines. split; [lia |]. split; [lia |]. split; [reflexivity |].
  refine (proj1 (proj2 (keypad_scan_first_low lines) 1%nat 2%nat
                   ltac:(lia) ltac:(lia) eq_refl _)).
  intros c r Hc Hr Hrank. unfold scan_rank in Hrank.
  small_index c; small_index r; try reflexivity; lia.
Defined.

Lemma recognised_symbols k :
  In k (keys "0123456789+-*/=C") -> recognised k.
Proof.
  unfold recognised. simpl. intros H.
  repeat (destruct H as [<- | H]); try contradiction;
    first [ left; reflexivity
          | right; left; reflexivity
          | right; right; left; reflexivity
          | right; right; right; reflexivity ].
Qed.

Lemma scan_symbols_keys k :
  In k (keys "741C8520963=/*-+") -> In k (keys "0123456789+-*/=C").
Proof.
  simpl. intros H.
  repeat (destruct H as [<- | H]); try contradiction; tauto.
Qed.

Lemma keymap_symbols_keys row col :
  (row < 4)%nat -> (col < 4)%nat ->
  In (ReadmeKeypad.keymap_at row col) (keys "0123456789+-*/=C").
Proof.
  intros Hr Hc. small_index row; small_index col; simpl; tauto.
Qed.

Lemma passed_over_row row0 pre row :
  passed_over row0 pre row -> (row0 < 4)%nat -> (row < 4)%nat.
Proof.
  induction 1 as [| ? ? ? ? _ _ IH | ? ? ? ? ? _ _ _ IH]; intros H;
    [exact H | apply IH, next_row_bound | apply IH, next_row_bound].
Qed.

Lemma find_col_bound row pins col rest :
  ReadmeKeypad.find_col row pins = Some (col, rest) -> (col < 4)%nat.
Proof.
  unfold ReadmeKeypad.find_col.
  repeat match goal with
  | |- context [match ?l with [] => _ | _ :: _ => _ end] =>
      destruct l; [discriminate |]
  | |- context [if ?b then _ else _] =>
      destruct b; [intros H; injection H as <- _; lia |]
  end.
  intros H; injection H as <- _; lia.
Qed.

(** X11. The scanner hands the controller nothing it does not know.  Every
    symbol [keypad_getkey] returns, in calculator.c on the readings of
    [keypad_scan] and in README.md on any port samples, is one of the sixteen
    keys '0'-'9', '+', '-', '*', '/', '=', 'C', so [main] has a branch for
    it; in README.md the indices into [keymap] stay below 4. *)
Theorem scanned_keys_are_recognised :
  (forall snapshots k rest,
      Keypad.keypad_getkey (map Keypad.keypad_scan snapshots) = Some (k, rest)
      -> In k (keys "0123456789+-*/=C") /\ recognised k)
  /\ (forall pins k rest,
      ReadmeKeypad.keypad_getkey pins = Some (k, rest) ->
      In k (keys "0123456789+-*/=C") /\ recognised k).
Proof.
  split.
  - intros snapshots k rest H.
    apply (proj1 (keypad_getkey_sound _)) in H.
    destruct H as [noise [held [E [Hk _]]]].
    assert (Hin : In k (map Keypad.keypad_scan snapshots)).
    { rewrite E. apply in_or_app. right. left. reflexivity. }
    apply in_map_iff in Hin. destruct Hin as [lines [<- _]].
    destruct (keypad_scan_symbols lines) as [E0 | Hs]; [contradiction |].
    apply scan_symbols_keys in Hs. split; [exact Hs |].
    apply recognised_symbols. exact Hs.
  - intros pins k rest H. unfold ReadmeKeypad.keypad_getkey in H.
    apply (proj1 (readme_scan_sound _)) in H.
    destruct H as [row [pre [p1 [p2 [after2 [col [held [p_rel H]]]]]]]].
    destruct H as [_ [Hpre [_ [_ [Hf [_ [_ ->]]]]]]].
    assert (Hr : (row < 4)%nat) by (apply (passed_over_row _ _ _ Hpre); lia).
    assert (Hc : (col < 4)%nat) by (apply (find_col_bound _ _ _ _ Hf)).
    pose proof (keymap_symbols_keys row col Hr Hc) as Hs.
    split; [exact Hs | apply recognised_symbols; exact Hs].
Qed.

Lemma scanned_keys_are_recognised_witness :
  let down : Keypad.matrix := fun col row => Nat.eqb col 3 && Nat.eqb row 1 in
  let up : Keypad.matrix := fun _ _ => false in
  Keypad.keypad_getkey (map Keypad.keypad_scan [down; down; up])
  = Some ("*"%char, [])
  /\ In "*"%char (keys "0123456789+-*/=C") /\ recognised "*"%char.
Proof.
  intros down up.
  assert (H : Keypad.keypad_getkey (map Keypad.keypad_scan [down; down; up])
              = Some ("*"%char, [])) by reflexivity.
  split; [exact H |].
  exact (proj1 scanned_keys_are_recognised [down; down; up] "*"%char [] H).
Defined.

(** X12. The two key tables hold the same sixteen symbols, each once, but
    not in the same places: the crossing that is '7' for calculator.c
    (column 1, row 1) is '1' in the [keymap] of README.md, and the '+' and
    '/' keys change places as well. *)
Theorem key_tables_same_symbols :
  NoDup (List.concat scan_layout)
  /\ NoDup (List.concat ReadmeKeypad.keymap)
  /\ (forall k, In k (List.concat scan_layout) <-> In k (List.concat ReadmeKeypad.keymap))
  /\ (forall k, In k (List.concat scan_layout) <-> In k (keys "0123456789+-*/=C"))
  /\ scan_key 0 0 = "7"%char /\ ReadmeKeypad.keymap_at 0 0 = "1"%char
  /\ scan_key 3 3 = "+"%char /\ ReadmeKeypad.keymap_at 3 3 = "/"%char
  /\ scan_key 3 0 = "/"%char /\ ReadmeKeypad.keymap_at 0 3 = "+"%char.
Proof.
  assert (N : forall l : list ascii,
            (fix nodup (l : list ascii) : bool :=
               match l with
               | [] => true
               | x :: r => negb (existsb (Ascii.eqb x) r) && nodup r
               end) l = true -> NoDup l).
  { induction l as [| x l IH]; intros H; [constructor |].
    apply andb_true_iff in H. destruct H as [Hx Hl].
    constructor; [| apply IH; exact Hl].
    intros Hin. apply negb_true_iff in Hx.
    assert (existsb (Ascii.eqb x) l = true)
      by (apply existsb_exists; exists x; split;
          [exact Hin | apply Ascii.eqb_refl]).
    congruence. }
  split; [apply N; reflexivity |].
  split; [apply N; reflexivity |].
  split; [| split; [| repeat split]].
  - intros k. simpl. split; intros H;
      repeat (destruct H as [<- | H]); try contradiction; tauto.
  - intros k. simpl. split; intros H;
      repeat (destruct H as [<- | H]); try contradiction; tauto.
Qed.

Lemma wait_release_held scans :
  held_down scans -> Keypad.wait_release scans = None.
Proof.
  induction 1 as [| c scans Hc _ IH]; [reflexivity |].
  cbn [Keypad.wait_release].
  destruct (Ascii.eqb_spec c NUL); [contradiction | exact IH].
Qed.

Lemma keypad_getkey_held scans :
  (held_down scans -> Keypad.keypad_getkey scans = None)
  /\ (forall c, held_down (c :: scans) ->
                Keypad.keypad_getkey (c :: scans) = None).
Proof.
  induction scans as [| c2 scans [IH1 IH2]].
  - split; [reflexivity |]. intros c H. cbn.
    destruct (Ascii.eqb c NUL); reflexivity.
  - split; [exact (IH2 c2) |]. intros c H.
    inversion H as [| ? ? Hc H2]; subst.
    inversion H2 as [| ? ? Hc2 H3]; subst.
    cbn [Keypad.keypad_getkey].
    destruct (Ascii.eqb_spec c NUL); [contradiction |]. cbn [negb].
    destruct (Ascii.eqb c2 c).
    + rewrite wait_release_held by exact H3. reflexivity.
    + apply IH1. exact H3.
Qed.

Lemma releases_app l1 l2 :
  releases (l1 ++ l2) = (releases l1 + releases l2)%nat.
Proof. unfold releases. apply count_occ_app. Qed.

Lemma accepted_cost k scans rest :
  accepted k scans rest ->
  (List.length rest + 3 <= List.length scans)%nat
  /\ (releases rest + 1 <= releases scans)%nat.
Proof.
  intros [noise [held [-> _]]]. split.
  - rewrite length_app. cbn [List.length]. rewrite length_app.
    cbn [List.length]. lia.
  - change (noise ++ k :: k :: held ++ NUL :: rest)
      with (noise ++ [k; k] ++ held ++ [NUL] ++ rest).
    rewrite !releases_app.
    assert (releases [NUL] = 1%nat) by reflexivity. lia.
Qed.

Lemma keys_upto_releases calls : forall scans,
  (List.length (keys_upto calls scans) <= releases scans)%nat.
Proof.
  induction calls as [| calls IH]; intros scans; cbn [keys_upto];
    [cbn; lia |].
  destruct (Keypad.keypad_getkey scans) as [[k rest] |] eqn:H; [| cbn; lia].
  apply (proj1 (keypad_getkey_sound _)) in H.
  apply accepted_cost in H. destruct H as [_ H].
  cbn [List.length]. specialize (IH rest). lia.
Qed.

(** X13. No repeat while a key is held, and no symbol without a release.
    [keypad_getkey] of calculator.c does not return as long as every scan
    finds a key down; a call that returns has consumed at least three
    readings, the last of them a scan with no key down; so a run of
    readings never yields more symbols than it contains such scans. *)
Theorem keypad_getkey_needs_release (scans : list ascii) :
  (held_down scans -> Keypad.keypad_getkey scans = None)
  /\ (forall k rest, Keypad.keypad_getkey scans = Some (k, rest) ->
        (List.length rest + 3 <= List.length scans)%nat
        /\ (releases rest + 1 <= releases scans)%nat)
  /\ (List.length (keys_of scans) <= releases scans)%nat.
Proof.
  split; [apply (proj1 (keypad_getkey_held scans)) |].
  split.
  - intros k rest H. apply accepted_cost with (k := k).
    apply (proj1 (keypad_getkey_sound _)). exact H.
  - apply keys_upto_releases.
Qed.

Lemma keypad_getkey_needs_release_witness :
  held_down (keys "5555555")
  /\ Keypad.keypad_getkey (keys "5555555") = None
  /\ keys_of (keys "55" ++ [NUL] ++ keys "5" ++ [NUL] ++ keys "99")
     = ["5"%char]
  /\ (List.length
        (keys_of (keys "55" ++ [NUL] ++ keys "5" ++ [NUL] ++ keys "99"))
      <= releases (keys "55" ++ [NUL] ++ keys "5" ++ [NUL] ++ keys "99"))%nat.
Proof.
  assert (H : held_down (keys "5555555"))
    by (repeat constructor; discriminate).
  split; [exact H |].
  split; [exact (proj1 (keypad_getkey_needs_release (keys "5555555")) H) |].
  split; [reflexivity |].
  exact (proj2 (proj2 (keypad_getkey_needs_release
           (keys "55" ++ [NUL] ++ keys "5" ++ [NUL] ++ keys "99")))).
Defined.

Lemma readme_wait_release_held row pins :
  Forall (fun p => ReadmeKeypad.column_low (p row) = true) pins ->
  ReadmeKeypad.wait_release row pins = None.
Proof.
  induction 1 as [| p pins Hp _ IH]; [reflexivity |].
  cbn [ReadmeKeypad.wait_release]. rewrite Hp. exact IH.
Qed.

(** X14. README.md: no return while a key is held, and a key from nowhere.
    As long as every sample shows a column low on whichever row is driven,
    [keypad_getkey] does not return.  And when a column read low before and
    after the debounce delay but each of the four reads of the column chain
    finds its own column high, the chain falls to [else col = 0]: once no
    column is low the key of column 0 of the driven row is returned. *)
Theorem readme_getkey_hold_and_fallback :
  (forall pins,
      Forall (fun p => forall row, ReadmeKeypad.column_low (p row) = true) pins
      -> ReadmeKeypad.keypad_getkey pins = None)
  /\ (forall row p1 p2 d0 d1 d2 d3 p_rel rest,
      ReadmeKeypad.column_low (p1 row) = true ->
      ReadmeKeypad.column_low (p2 row) = true ->
      Z.testbit (d0 row) 4 = true -> Z.testbit (d1 row) 5 = true ->
      Z.testbit (d2 row) 6 = true -> Z.testbit (d3 row) 7 = true ->
      ReadmeKeypad.column_low (p_rel row) = false ->
      ReadmeKeypad.scan_from row (p1 :: p2 :: d0 :: d1 :: d2 :: d3 :: p_rel :: rest)
      = Some (ReadmeKeypad.keymap_at row 0, rest)).
Proof.
  split.
  - intros pins H. unfold ReadmeKeypad.keypad_getkey.
    generalize 0%nat as row.
    assert (G : forall pins,
              Forall (fun p => forall row,
                        ReadmeKeypad.column_low (p row) = true) pins ->
              (forall row, ReadmeKeypad.scan_from row pins = None)
              /\ (forall p row, (forall r, ReadmeKeypad.column_low (p r) = true) ->
                                ReadmeKeypad.scan_from row (p :: pins) = None)).
    { clear. induction pins as [| p2 pins IH]; intros H.
      - split; [reflexivity |]. intros p row Hp. cbn. rewrite Hp. reflexivity.
      - inversion H as [| ? ? Hp2 H']; subst.
        destruct (IH H') as [IH1 IH2].
        split; [intros row; apply IH2; exact Hp2 |].
        intros p row Hp. cbn [ReadmeKeypad.scan_from]. rewrite Hp, Hp2.
        assert (Hf : forall col after,
                  ReadmeKeypad.find_col row pins = Some (col, after) ->
                  ReadmeKeypad.wait_release row after = None).
        { intros col after Hf. apply readme_wait_release_held.
          assert (Hrow : Forall (fun q => ReadmeKeypad.column_low (q row) = true)
                           pins).
          { apply Forall_forall. intros q Hq.
            apply (proj1 (Forall_forall _ _) H' q Hq). }
          revert Hf. unfold ReadmeKeypad.find_col.
          repeat match goal with
          | |- context [match ?l with [] => _ | _ :: _ => _ end] =>
              destruct l; [discriminate |];
              match goal with
              | Hr : Forall _ (_ :: _) |- _ =>
                  let a := fresh in let b := fresh in
                  inversion Hr as [| ? ? a b]; subst; clear Hr
              end
          | |- context [if ?b then _ else _] =>
              destruct b; [intros E; injection E as _ <-; assumption |]
          end.
          intros E; injection E as _ <-; assumption. }
        destruct (ReadmeKeypad.find_col row pins) as [[col after] |] eqn:Ef;
          [| reflexivity].
        rewrite (Hf col after eq_refl). reflexivity. }
    intros row. apply (proj1 (G pins H)).
  - intros row p1 p2 d0 d1 d2 d3 p_rel rest H1 H2 B0 B1 B2 B3 Hrel.
    assert (T : forall v n, (n = 4 \/ n = 5 \/ n = 6 \/ n = 7) ->
              Z.testbit v n = true -> (Z.land v (2 ^ n) =? 0) = false).
    { intros v n Hn Hb. apply Z.eqb_neq. intros E.
      assert (Z.testbit (Z.land v (2 ^ n)) n = true).
      { rewrite Z.land_spec, Hb, Z.pow2_bits_true by lia. reflexivity. }
      rewrite E, Z.bits_0 in H. discriminate H. }
    cbn [ReadmeKeypad.scan_from]. rewrite H1, H2.
    unfold ReadmeKeypad.find_col.
    change 16 with (2 ^ 4). change 32 with (2 ^ 5).
    change 64 with (2 ^ 6). change 128 with (2 ^ 7).
    rewrite (T _ 4), (T _ 5), (T _ 6), (T _ 7) by (assumption || lia).
    cbn [ReadmeKeypad.wait_release]. rewrite Hrel. reflexivity.
Qed.

Lemma readme_getkey_hold_and_fallback_witness :
  let low : ReadmeKeypad.sample := fun _ => 176 in
  let high : ReadmeKeypad.sample := fun _ => 240 in
  ReadmeKeypad.column_low (low 2%nat) = true
  /\ Z.testbit (high 2%nat) 4 = true /\ Z.testbit (high 2%nat) 5 = true
  /\ Z.testbit (high 2%nat) 6 = true /\ Z.testbit (high 2%nat) 7 = true
  /\ ReadmeKeypad.column_low (high 2%nat) = false
  /\ ReadmeKeypad.scan_from 2
       [low; low; high; high; high; high; high]
     = Some ("7"%char, []).
Proof.
  intros low high. repeat (split; [reflexivity |]).
  exact (proj2 readme_getkey_hold_and_fallback 2%nat low low high high high
           high high [] eq_refl eq_refl eq_refl eq_refl eq_refl eq_refl
           eq_refl).
Defined.

(** ** More on the display functions *)

Lemma lcd_print_until s : forall m,
  lcd_print s m
  = Some (tt, {| lcd_bus := lcd_bus m
                            ++ map LcdData (until_nul (list_ascii_of_string s));
                 error_flag := error_flag m |}).
Proof.
  induction s as [| c s IH]; intros [bus ef].
  - cbn. rewrite app_nil_r. reflexivity.
  - cbn [lcd_print list_ascii_of_string until_nul].
    destruct (Ascii.eqb c NUL).
    + cbn. rewrite app_nil_r. reflexivity.
    + unfold bind, lcd_data, emit. rewrite IH.
      cbn [lcd_bus error_flag map]. rewrite <- app_assoc. reflexivity.
Qed.

Lemma until_nul_split l :
  exists rest,
    l = until_nul l ++ rest /\ ~ In NUL (until_nul l)
    /\ (rest = [] \/ exists r, rest = NUL :: r).
Proof.
  induction l as [| c l [rest [E [Hn Hr]]]].
  - exists []. split; [reflexivity |]. split; [intros [] | left; reflexivity].
  - cbn [until_nul]. destruct (Ascii.eqb_spec c NUL) as [-> | Hc].
    + exists (NUL :: l). split; [reflexivity |].
      split; [intros [] | right; exists l; reflexivity].
    + exists rest. split; [cbn [app]; rewrite <- E; reflexivity |].
      split; [| exact Hr].
      intros [H | H]; [apply Hc; exact H | exact (Hn H)].
Qed.

Lemma until_nul_app l1 l2 :
  (~ In NUL l1 -> until_nul (l1 ++ l2) = l1 ++ until_nul l2)
  /\ (In NUL l1 -> until_nul (l1 ++ l2) = until_nul l1).
Proof.
  induction l1 as [| c l1 [IH1 IH2]].
  - split; [reflexivity | intros []].
  - cbn [app until_nul]. destruct (Ascii.eqb_spec c NUL) as [-> | Hc].
    + split; [intros H; exfalso; apply H; left; reflexivity | reflexivity].
    + split.
      * intros H. rewrite IH1; [reflexivity |].
        intros H'. apply H. right. exact H'.
      * intros [H | H]; [exfalso; apply Hc; exact H |].
        rewrite IH2 by exact H. reflexivity.
Qed.

Lemma list_ascii_of_string_app s1 s2 :
  list_ascii_of_string (s1 ++ s2)
  = list_ascii_of_string s1 ++ list_ascii_of_string s2.
Proof.
  induction s1 as [| c s1 IH]; [reflexivity |].
  cbn [String.append list_ascii_of_string app]. rewrite IH. reflexivity.
Qed.

(** X15. [lcd_print] sends, as data bytes after whatever was sent before,
    the characters of its string in order up to the first 0 byte, which it
    does not send, and nothing of what follows that byte.  So printing a
    concatenation is printing the first part and then the second when the
    first part holds no 0 byte, and is printing the first part alone when
    it holds one. *)
Theorem lcd_print_in_order (s1 s2 : string) (m : machine) :
  (exists out rest,
      lcd_print s1 m
      = Some (tt, {| lcd_bus := lcd_bus m ++ map LcdData out;
                     error_flag := error_flag m |})
      /\ list_ascii_of_string s1 = out ++ rest
      /\ ~ In NUL out
      /\ (rest = [] \/ exists r, rest = NUL :: r))
  /\ (~ In NUL (list_ascii_of_string s1) ->
      lcd_print (s1 ++ s2) m = (lcd_print s1 ;; lcd_print s2) m)
  /\ (In NUL (list_ascii_of_string s1) ->
      lcd_print (s1 ++ s2) m = lcd_print s1 m).
Proof.
  split; [| split].
  - destruct (until_nul_split (list_ascii_of_string s1))
      as [rest [E [Hn Hr]]].
    exists (until_nul (list_ascii_of_string s1)), rest.
    split; [apply lcd_print_until |]. repeat split; assumption.
  - intros H. unfold bind. rewrite !lcd_print_until.
    cbn [lcd_bus error_flag].
    rewrite list_ascii_of_string_app.
    rewrite (proj1 (until_nul_app _ _) H).
    assert (E : until_nul (list_ascii_of_string s1) = list_ascii_of_string s1).
    { pose proof (proj1 (until_nul_app (list_ascii_of_string s1) []) H) as E.
      rewrite !app_nil_r in E. exact E. }
    rewrite E, map_app, app_assoc. reflexivity.
  - intros H. rewrite !lcd_print_until, list_ascii_of_string_app.
    rewrite (proj2 (until_nul_app _ _) H). reflexivity.
Qed.

Lemma lcd_print_in_order_witness :
  let s1 := String "a" (String NUL (String "b" EmptyString)) in
  In NUL (list_ascii_of_string s1)
  /\ lcd_print (s1 ++ "cd") power_on = lcd_print s1 power_on
  /\ lcd_print s1 power_on
     = Some (tt, {| lcd_bus := [LcdData "a"%char]; error_flag := 0 |}).
Proof.
  intros s1.
  assert (H : In NUL (list_ascii_of_string s1)) by (right; left; reflexivity).
  split; [exact H |].
  split; [exact (proj2 (proj2 (lcd_print_in_order s1 "cd" power_on)) H) |].
  reflexivity.
Defined.

Lemma lcd_goto_sends row col m :
  0 <= row < 256 -> 0 <= col < 256 ->
  lcd_goto row col m
  = Some (tt, {| lcd_bus := lcd_bus m
                   ++ [LcdCmd ((if row =? 0 then 128 + col else 192 + col)
                               mod 256)];
                 error_flag := error_flag m |}).
Proof.
  intros Hr Hc. unfold lcd_goto, lcd_cmd, emit.
  rewrite (Z.mod_small row), (Z.mod_small col) by lia. reflexivity.
Qed.

(** X16. [lcd_goto] does not check its column.  For a row and a column that
    fit in a byte: a column below 64 gets the address command 0x80 + col on
    row 0 and 0xC0 + col on every other row, so different positions of the
    two lines get different commands.  A column from 64 to 127 on row 0
    lands on the second line, and a column from 128 on sends a byte below
    0x80, which is no address command at all (129 clears the display). *)
Theorem lcd_goto_addresses (row col : Z) (m : machine) :
  0 <= row < 256 -> 0 <= col < 256 ->
  exists cmd,
    lcd_goto row col m
    = Some (tt, {| lcd_bus := lcd_bus m ++ [LcdCmd cmd];
                   error_flag := error_flag m |})
    /\ (col < 64 -> cmd = (if row =? 0 then 128 else 192) + col)
    /\ (row <> 0 -> lcd_goto row col m = lcd_goto 1 col m)
    /\ (64 <= col < 128 -> lcd_goto 0 col m = lcd_goto 1 (col - 64) m)
    /\ (128 <= col -> row = 0 -> cmd = col - 128 /\ cmd < 128).
Proof.
  intros Hr Hc.
  exists ((if row =? 0 then 128 + col else 192 + col) mod 256).
  split; [apply lcd_goto_sends; assumption |].
  split; [| split; [| split]].
  - intros H. destruct (row =? 0); rewrite Z.mod_small; lia.
  - intros H. rewrite !lcd_goto_sends by lia.
    destruct (Z.eqb_spec row 0); [contradiction | reflexivity].
  - intros H. rewrite !lcd_goto_sends by lia.
    change (0 =? 0) with true. change (1 =? 0) with false. cbv iota.
    replace (192 + (col - 64)) with (128 + col) by lia. reflexivity.
  - intros H ->. change (0 =? 0) with true. cbv iota.
    replace (128 + col) with (col - 128 + 1 * 256) by lia.
    rewrite Z.mod_add, Z.mod_small by lia. lia.
Qed.

Lemma lcd_goto_addresses_witness :
  0 <= 0 < 256 /\ 0 <= 129 < 256
  /\ exists cmd,
       lcd_goto 0 129 power_on
       = Some (tt, {| lcd_bus := [LcdCmd cmd]; error_flag := 0 |})
       /\ (129 < 64 -> cmd = 128 + 129)
       /\ (0 <> 0 -> lcd_goto 0 129 power_on = lcd_goto 1 129 power_on)
       /\ (64 <= 129 < 128 ->
           lcd_goto 0 129 power_on = lcd_goto 1 (129 - 64) power_on)
       /\ (128 <= 129 -> 0 = 0 -> cmd = 129 - 128 /\ cmd < 128).
Proof.
  assert (Hr : 0 <= 0 < 256) by lia.
  assert (H : 0 <= 129 < 256) by lia.
  split; [exact Hr |]. split; [exact H |].
  exact (lcd_goto_addresses 0 129 power_on Hr H).
Defined.

Lemma digits_lsb_room r : forall n k,
  n < 10 ^ Z.of_nat r -> Long.in_range n ->
  digits_lsb (r + k) n = digits_lsb r n
  /\ (List.length (digits_lsb r n) <= r)%nat.
Proof.
  induction r as [| r IH]; intros n k Hn Hr.
  - simpl in Hn. destruct k; cbn [Nat.add digits_lsb]; [split; [reflexivity | cbn; lia] |].
    destruct (Z.ltb_spec 0 n); [lia |]. split; [reflexivity | cbn; lia].
  - cbn [Nat.add digits_lsb]. destruct (Z.ltb_spec 0 n) as [Hpos | _];
      [| split; [reflexivity | cbn; lia]].
    assert (Hq : 0 <= Z.quot n 10 < 10 ^ Z.of_nat r).
    { rewrite Nat2Z.inj_succ, Z.pow_succ_r in Hn by lia.
      split; [apply Z.quot_pos; lia |].
      apply Z.quot_lt_upper_bound; lia. }
    assert (Hq2 : Z.quot n 10 <= n).
    { pose proof (Z.mul_quot_le n 10 ltac:(lia) ltac:(lia)). lia. }
    assert (Hqr : Long.in_range (Z.quot n 10)).
    { unfold Long.in_range, Long.min_long, Long.max_long in *. lia. }
    rewrite (wrap_id _ Hqr).
    destruct (IH (Z.quot n 10) k (proj2 Hq) Hqr) as [E L].
    rewrite E. split; [reflexivity | cbn [List.length]; lia].
Qed.

(** X17. The digit buffer is never overrun.  For every [long] the digit
    loop of [lcd_print_num] stops because the number is used up, with at
    most 10 cells of [buf[12]] written; the guard [i < 11] never cuts a
    number short (any larger bound gives the same digits), and the call
    sends at most 11 characters. *)
Theorem lcd_print_num_buffer_bound (n : Z) (room : nat) (m : machine) :
  Long.in_range n -> (10 <= room)%nat ->
  let n' := if n <? 0 then Long.neg n else n in
  exists buf,
    fill_buf 11 n' [] m = Some (buf, m)
    /\ fill_buf room n' [] m = Some (buf, m)
    /\ (List.length buf <= 10)%nat
    /\ (List.length (rendering n) <= 11)%nat.
Proof.
  intros Hn Hroom n'.
  assert (Hn' : Long.in_range n') by
    (unfold n'; destruct (n <? 0); [apply wrap_in_range | exact Hn]).
  assert (Hp : n' < 10 ^ Z.of_nat 10).
  { unfold Long.in_range, Long.max_long in Hn'.
    change (10 ^ Z.of_nat 10) with 10000000000. lia. }
  exists (digits_lsb 10 n').
  destruct (digits_lsb_room 10 n' 1 Hp Hn') as [E11 L].
  destruct (digits_lsb_room 10 n' (room - 10) Hp Hn') as [Er _].
  replace (10 + (room - 10))%nat with room in Er by lia.
  change (10 + 1)%nat with 11%nat in E11.
  rewrite !fill_buf_digits. cbn [app]. rewrite E11, Er.
  split; [reflexivity |]. split; [reflexivity |]. split; [exact L |].
  unfold rendering. fold n'.
  destruct (n =? 0); [cbn; lia |].
  unfold n' in *. destruct (n <? 0); cbn [List.length];
    rewrite ?length_rev, E11; lia.
Qed.

Lemma lcd_print_num_buffer_bound_witness :
  Long.in_range (-2147483647) /\ (10 <= 10)%nat
  /\ exists buf,
       fill_buf 11 2147483647 [] power_on = Some (buf, power_on)
       /\ fill_buf 10 2147483647 [] power_on = Some (buf, power_on)
       /\ (List.length buf <= 10)%nat
       /\ (List.length (rendering (-2147483647)) <= 11)%nat.
Proof.
  assert (H : Long.in_range (-2147483647)) by long_range.
  split; [exact H |]. split; [lia |].
  exact (lcd_print_num_buffer_bound (-2147483647) 10 power_on H
           (Nat.le_refl 10)).
Defined.

(** X18. [lcd_print_num] is right for every [long] but one: for [n] other
    than -2^31 it sends exactly the decimal representation of [n] (a '-'
    for a negative number, then the digits without leading zero, "0" for
    zero) and changes nothing else. *)
Theorem lcd_print_num_correct_but_min (n : Z) (m : machine) :
  Long.in_range n -> n <> Long.min_long ->
  lcd_print_num n m
  = Some (tt, {| lcd_bus := lcd_bus m ++ map LcdData (rendering n);
                 error_flag := error_flag m |})
  /\ decimal_repr n (rendering n).
Proof.
  intros Hn Hmin.
  split; [rewrite lcd_print_num_rendering; reflexivity |].
  unfold rendering, decimal_repr.
  assert (Hpow : 2 ^ 31 < 10 ^ Z.of_nat 11) by (vm_compute; reflexivity).
  unfold Long.in_range, Long.min_long, Long.max_long in *.
  destruct (Z.eqb_spec n 0) as [-> | Hn0]; [left; split; reflexivity |].
  destruct (Z.ltb_spec n 0) as [Hlt | Hge].
  - right; right. split; [exact Hlt |].
    exists (rev (digits_lsb 11 (Long.neg n))). split; [reflexivity |].
    unfold Long.neg. rewrite wrap_id by long_range.
    apply digits_lsb_correct; unfold Long.max_long; lia.
  - right; left. split; [lia |].
    apply digits_lsb_correct; unfold Long.max_long; lia.
Qed.

Lemma lcd_print_num_correct_but_min_witness :
  Long.in_range (-2147483647) /\ -2147483647 <> Long.min_long
  /\ lcd_print_num (-2147483647) power_on
     = Some (tt, {| lcd_bus := map LcdData (keys "-2147483647");
                    error_flag := 0 |})
  /\ decimal_repr (-2147483647) (keys "-2147483647").
Proof.
  assert (H : Long.in_range (-2147483647)) by long_range.
  assert (H' : -2147483647 <> Long.min_long) by (unfold Long.min_long; lia).
  split; [exact H |]. split; [exact H' |].
  exact (lcd_print_num_correct_but_min (-2147483647) power_on H H').
Defined.

(** ** The display functions on the pins *)

Lemma to_char_of_ascii c : to_char (Z.of_N (N_of_ascii c)) = c.
Proof.
  unfold to_char.
  assert (H : (N_of_ascii c < 256)%N) by apply N_ascii_bounded.
  rewrite Z.mod_small by lia. rewrite N2Z.id. apply ascii_N_embedding.
Qed.

Lemma latched_app ops1 : forall p ops2,
  latched p (ops1 ++ ops2)
  = latched p ops1 ++ latched (pins_after p ops1) ops2.
Proof.
  induction ops1 as [| o ops1 IH]; intros p ops2; [reflexivity |].
  cbn [app latched pins_after fold_left]. rewrite IH, app_assoc.
  reflexivity.
Qed.

Lemma pulse_timing_app ms ops1 : forall p high ops2,
  pin_EN (pins_after p ops1) = false ->
  pulse_timing ms p high (ops1 ++ ops2)
  = pulse_timing ms p high ops1
    && pulse_timing ms (pins_after p ops1) 0 ops2.
Proof.
  assert (G : forall ops p h h', pin_EN p = false ->
            pulse_timing ms p h ops = pulse_timing ms p h' ops).
  { induction ops as [| o ops IHo]; intros p h h' Hp; [reflexivity |].
    destruct o as [b | b | [|] | v | d]; cbn [pulse_timing]; rewrite ?Hp;
      cbn [negb andb orb];
      try reflexivity; apply IHo; exact Hp. }
  induction ops1 as [| o ops1 IH]; intros p high ops2 H.
  - cbn [app pulse_timing pins_after fold_left andb] in *.
    apply G. exact H.
  - cbn [pins_after fold_left] in H.
    destruct o as [b | b | [|] | v | d]; cbn [app pulse_timing];
      rewrite ?(IH _ _ _ H), ?andb_assoc; reflexivity.
Qed.

Lemma one_request p e :
  pin_EN p = false ->
  latched p (pins_of_event e) = [byte_event e]
  /\ latched p (readme_pins_of_event e) = [byte_event e]
  /\ pin_EN (pins_after p (pins_of_event e)) = false
  /\ pin_EN (pins_after p (readme_pins_of_event e)) = false
  /\ pulse_timing 2 p 0 (pins_of_event e) = true
  /\ pulse_timing 2 p 0 (readme_pins_of_event e) = true.
Proof.
  intros H. destruct p as [rs rw en data]. cbn [pin_EN] in H. subst en.
  destruct e as [cmd | dat]; cbn; rewrite ?to_char_of_ascii;
    repeat split; reflexivity.
Qed.

(** X19. The display receives what the firmware means to send.  Starting
    with [EN] low, a sequence of [lcd_cmd] and [lcd_data] calls, of
    calculator.c or of README.md, pulses [EN] once per call: the display
    latches exactly the bytes passed, in call order, commands with [RS] low
    and data with [RS] high; [RS], [RW] and the data port change only while
    [EN] is low, [EN] stays high for a 2 ms delay, and is low again at the
    end. *)
Theorem display_latches_requests (events : list lcd_event) (p : lcd_pins) :
  pin_EN p = false ->
  latched p (flat_map pins_of_event events) = map byte_event events
  /\ latched p (flat_map readme_pins_of_event events) = map byte_event events
  /\ pulse_timing 2 p 0 (flat_map pins_of_event events) = true
  /\ pulse_timing 2 p 0 (flat_map readme_pins_of_event events) = true
  /\ pin_EN (pins_after p (flat_map pins_of_event events)) = false
  /\ pin_EN (pins_after p (flat_map readme_pins_of_event events)) = false.
Proof.
  revert p. induction events as [| e events IH]; intros p H.
  - cbn. repeat split; exact H.
  - destruct (one_request p e H) as [L1 [L2 [E1 [E2 [T1 T2]]]]].
    destruct (IH _ E1) as [A1 [_ [A3 [_ [A5 _]]]]].
    destruct (IH _ E2) as [_ [B2 [_ [B4 [_ B6]]]]].
    cbn [flat_map map].
    rewrite !latched_app, L1, L2, A1, B2.
    rewrite !pulse_timing_app, T1, T2, A3, B4 by assumption.
    unfold pins_after in *. rewrite !fold_left_app.
    repeat split; assumption.
Qed.

Lemma display_latches_requests_witness :
  let p := {| pin_RS := true; pin_RW := true; pin_EN := false;
              pin_DATA := 255 |} in
  pin_EN p = false
  /\ latched p (LcdPins.lcd_cmd 56 ++ LcdPins.lcd_data "A"%char)
     = [LcdCmd 56; LcdData "A"%char]
  /\ latched p (ReadmeLcdPins.lcd_cmd 56 ++ ReadmeLcdPins.lcd_data "A"%char)
     = [LcdCmd 56; LcdData "A"%char].
Proof.
  intros p. split; [reflexivity |].
  pose proof (display_latches_requests [LcdCmd 56; LcdData "A"%char] p
                eq_refl) as [H1 [H2 _]].
  cbn [flat_map pins_of_event readme_pins_of_event] in H1, H2.
  rewrite !app_nil_r in H1, H2. split; [exact H1 | exact H2].
Defined.

Lemma rejected_idle_run n : rejected (repeat NUL n).
Proof. induction n as [| n IH]; [constructor | apply rejected_idle, IH]. Qed.

Lemma keypad_getkey_press p rest :
  press_key p <> NUL ->
  Keypad.keypad_getkey (press_scans p ++ rest) = Some (press_key p, rest).
Proof.
  intros Hk. apply keypad_getkey_complete.
  exists (repeat NUL (press_gap p)), (repeat (press_key p) (press_extra p)).
  unfold press_scans. cbn [Nat.add repeat].
  rewrite <- !app_assoc. cbn [app].
  repeat split; [exact Hk | apply rejected_idle_run |].
  apply held_down_repeat. exact Hk.
Qed.

Lemma keys_upto_presses presses : forall calls,
  Forall (fun p => press_key p <> NUL) presses ->
  (List.length presses <= calls)%nat ->
  keys_upto calls (flat_map press_scans presses) = map press_key presses.
Proof.
  induction presses as [| p presses IH]; intros calls Hk Hc.
  - destruct calls; reflexivity.
  - inversion Hk as [| ? ? Hp Hps]; subst.
    destruct calls as [| calls]; [cbn in Hc; lia |].
    cbn [flat_map map keys_upto]. rewrite (keypad_getkey_press p _ Hp).
    rewrite IH; [reflexivity | exact Hps | cbn in Hc; lia].
Qed.

(** X20. Presses come out as keys, in order and once each.  For any
    sequence of presses, each with its key read by two or more scans in a
    row and followed by a scan that finds it released, with any number of
    idle scans in between, the successive calls of [keypad_getkey] return
    exactly the keys pressed, in the order pressed. *)
Theorem presses_become_keys (presses : list press) :
  Forall (fun p => press_key p <> NUL) presses ->
  keys_of (flat_map press_scans presses) = map press_key presses.
Proof.
  intros Hk. unfold keys_of. apply keys_upto_presses; [exact Hk |].
  clear Hk. induction presses as [| p presses IH]; [cbn; lia |].
  cbn [flat_map List.length]. rewrite length_app.
  unfold press_scans at 1. rewrite !length_app, !repeat_length.
  cbn [List.length]. lia.
Qed.

Lemma presses_become_keys_witness :
  let presses := [ mkPress 3 "7" 0; mkPress 0 "*" 5; mkPress 1 "6" 2;
                   mkPress 0 "=" 0 ]%char in
  Forall (fun p => press_key p <> NUL) presses
  /\ keys_of (flat_map press_scans presses) = keys "7*6=".
Proof.
  intros presses.
  assert (H : Forall (fun p => press_key p <> NUL) presses)
    by (repeat constructor; discriminate).
  split; [exact H |]. exact (presses_become_keys presses H).
Defined.

(** ** The delay loop *)

Lemma delay_inner_runs budget : forall j spins,
  0 <= j <= 123 -> (Z.to_nat (123 - j) < budget)%nat ->
  delay_inner budget j spins = Some (spins + (123 - j)).
Proof.
  induction budget as [| budget IH]; intros j spins Hj Hb; [lia |].
  cbn [delay_inner]. destruct (Z.ltb_spec j 123) as [Hlt | Hge].
  - unfold wrap16. rewrite Z.mod_small by lia.
    rewrite IH by lia. f_equal. lia.
  - f_equal. lia.
Qed.

Lemma delay_outer_runs budget : forall inner i ms spins,
  0 <= i <= ms -> ms < 65536 -> (123 < inner)%nat ->
  (Z.to_nat (ms - i) < budget)%nat ->
  delay_outer budget inner i ms spins = Some (spins + 123 * (ms - i)).
Proof.
  induction budget as [| budget IH]; intros inner i ms spins Hi Hms Hin Hb;
    [lia |].
  cbn [delay_outer]. destruct (Z.ltb_spec i ms) as [Hlt | Hge].
  - rewrite delay_inner_runs by (cbn; lia).
    unfold wrap16. rewrite Z.mod_small by lia.
    rewrite IH by lia. f_equal. lia.
  - f_equal. lia.
Qed.

(** X21. [delay_ms] returns for every 16-bit argument, 65535 included (the
    counter [i] reaches [ms] before it could wrap), after going through the
    empty inner body exactly 123 times per millisecond asked for;
    [delay_ms(0)] does not spin at all. *)
Theorem delay_ms_terminates (ms : Z) (budget : nat) :
  0 <= ms < 65536 -> (Z.to_nat ms + 124 <= budget)%nat ->
  delay_ms budget ms = Some (123 * ms).
Proof.
  intros Hms Hb. unfold delay_ms.
  rewrite delay_outer_runs by lia. f_equal. lia.
Qed.

Lemma delay_ms_terminates_witness :
  0 <= 20 < 65536 /\ (Z.to_nat 20 + 124 <= 144)%nat
  /\ delay_ms 144 20 = Some 2460.
Proof.
  assert (H : 0 <= 20 < 65536) by lia.
  assert (H' : (Z.to_nat 20 + 124 <= 144)%nat) by (vm_compute; lia).
  split; [exact H |]. split; [exact H' |].
  exact (delay_ms_terminates 20 144 H H').
Defined.

(** [lcd_init] on the pins: the four set-up commands, in the order of each
    file, after the power-on wait. *)
Lemma lcd_init_latched p :
  pin_EN p = false ->
  latched p LcdPins.lcd_init = [LcdCmd 56; LcdCmd 12; LcdCmd 6; LcdCmd 1]
  /\ latched p ReadmeLcdPins.lcd_init
     = [LcdCmd 56; LcdCmd 12; LcdCmd 1; LcdCmd 6]
  /\ pulse_timing 2 p 0 LcdPins.lcd_init = true
  /\ pulse_timing 2 p 0 ReadmeLcdPins.lcd_init = true.
Proof.
  intros H. destruct p as [rs rw en data]. cbn [pin_EN] in H. subst en.
  repeat split; reflexivity.
Qed.
